(** * Shamsi calendar (scal.py): a shallow embedding and its properties

    The development follows [scal.py] function by function.  Python integers
    are unbounded and are modelled by [Z]; Python's [%] with a positive
    divisor is floored and coincides with [Z.modulo].  Lists are Rocq lists
    read with stdpp's lookup; an exception is a value of [result]. *)

From Stdlib Require Import ZArith Bool Ascii String Lia.
From Stdlib Require Import DecimalString.
From stdpp Require Import base list.

Local Open Scope Z_scope.

(** ** A small model of the Python constructs the program uses *)

Module Py.

Inductive exn : Set := IndexError | ValueError | OverflowError.

(** Outcome of a computation: a value, a raised exception, or a loop that
    ran out of the iterations granted to it ([NoFuel]).  The loops of the
    program are shown below never to reach [NoFuel]. *)
Inductive result (A : Type) : Type :=
| Ok (a : A)
| Raise (e : exn)
| NoFuel.
Arguments Ok {A} a.
Arguments Raise {A} e.
Arguments NoFuel {A}.

Definition bind {A B : Type} (r : result A) (k : A -> result B) : result B :=
  match r with
  | Ok a => k a
  | Raise e => Raise e
  | NoFuel => NoFuel
  end.

(** [l[i]]: a negative index counts from the end; out of range raises. *)
Definition index {A : Type} (l : list A) (i : Z) : result A :=
  let n := Z.of_nat (length l) in
  let j := if i <? 0 then i + n else i in
  if (j <? 0) || (n <=? j) then Raise IndexError
  else match l !! Z.to_nat j with
       | Some x => Ok x
       | None => Raise IndexError
       end.

(** Clamping of a slice bound, as [slice.indices] does for step 1. *)
Definition clamp (n i : Z) : Z :=
  let j := if i <? 0 then i + n else i in
  if j <? 0 then 0 else if n <? j then n else j.

(** [l[start:stop]]: never raises. *)
Definition slice {A : Type} (l : list A) (start stop : Z) : list A :=
  let n := Z.of_nat (length l) in
  let a := clamp n start in
  let b := clamp n stop in
  take (Z.to_nat (b - a)) (drop (Z.to_nat a) l).

(** [sum(l)]. *)
Definition sum (l : list Z) : Z := fold_left Z.add l 0.

(** [str(n)] for an integer.  The interpreter's limit on the number of
    digits of such a conversion (4300 by default) is not modelled; it is
    out of reach of the years that fit a C [int]. *)
Definition str (n : Z) : string := NilZero.string_of_int (Z.to_int n).

(** [len(s)] for a string. *)
Definition len (s : string) : Z := Z.of_nat (String.length s).

(** [s * k]: repetition, empty when [k <= 0]. *)
Fixpoint repeat_nat (s : string) (k : nat) : string :=
  match k with
  | O => EmptyString
  | S k' => String.append s (repeat_nat s k')
  end.
Definition mul (s : string) (k : Z) : string := repeat_nat s (Z.to_nat k).

(** [f"{n:3}"]: right-aligned in a field of width 3. *)
Definition fmt3 (n : Z) : string :=
  String.append (mul " " (3 - len (str n))) (str n).

End Py.

Import Py.

Notation "x <~ c1 ;; c2" := (Py.bind c1 (fun x => c2))
  (at level 100, c1 at next level, right associativity).

(** ** Leap-year oracle *)

Definition is_shamsi_leap_year (shamsi_year : Z) : bool :=
  let rem := (shamsi_year + 2346) mod 33 in
  (rem =? 1) || (rem =? 5) || (rem =? 9) || (rem =? 13) || (rem =? 17)
  || (rem =? 21) || (rem =? 26) || (rem =? 30).

(** The Gregorian leap test, written inline in the source as
    [(gy % 4 == 0 and gy % 100 != 0) or (gy % 400 == 0)]. *)
Definition gregorian_leap (gy : Z) : bool :=
  ((gy mod 4 =? 0) && negb (gy mod 100 =? 0)) || (gy mod 400 =? 0).

(** ** Date converter *)

Definition g_days_in_month : list Z :=
  [0; 31; 28; 31; 30; 31; 30; 31; 31; 30; 31; 30; 31].
Definition j_days_in_month : list Z :=
  [0; 31; 31; 31; 31; 31; 31; 30; 30; 30; 30; 30; 29].

(** The [while total_days_gregorian > 0] loop of [shamsi_to_gregorian];
    the state is [(total, gm, gd)], the result the final [(gm, gd)]. *)
Fixpoint g_month_walk (fuel : nat) (gy total gm gd : Z) : result (Z * Z) :=
  if 0 <? total then
    match fuel with
    | O => NoFuel
    | S fuel' =>
        d0 <~ index g_days_in_month gm ;;
        let days_in_current_g_month :=
          if (gm =? 2) && gregorian_leap gy then 29 else d0 in
        if total <=? days_in_current_g_month then Ok (gm, total)
        else g_month_walk fuel' gy (total - days_in_current_g_month) (gm + 1) gd
    end
  else Ok (gm, gd).

(** Thirteen iterations always suffice: the thirteenth indexes the table at
    13 and raises (see [g_month_walk_fuel]). *)
Definition walk_fuel : nat := 13.

Definition shamsi_to_gregorian (shamsi_year shamsi_month shamsi_day : Z)
  : result (Z * Z * Z) :=
  let j_days :=
    if is_shamsi_leap_year shamsi_year
    then <[12%nat := 30]> j_days_in_month else j_days_in_month in
  let jy := shamsi_year in
  let jm := shamsi_month in
  let jd := shamsi_day in
  let days_passed_shamsi := sum (slice j_days 1 jm) + jd in
  let gy := jy + 621 in
  let g_day_of_year_new_year :=
    if is_shamsi_leap_year (jy - 1) then 80 else 79 in
  let total_days_gregorian := g_day_of_year_new_year + days_passed_shamsi in
  let year_len := 365 + (if gregorian_leap gy then 1 else 0) in
  let '(total_days_gregorian, gy) :=
    if year_len <? total_days_gregorian
    then (total_days_gregorian - year_len, gy + 1)
    else (total_days_gregorian, gy) in
  r <~ g_month_walk walk_fuel gy total_days_gregorian 1 0 ;;
  let '(gm, gd) := r in Ok (gy, gm, gd).

(** The [while days_passed_shamsi > 0] loop of [gregorian_to_shamsi]. *)
Fixpoint j_month_walk (fuel : nat) (jy total jm jd : Z) : result (Z * Z) :=
  if 0 <? total then
    match fuel with
    | O => NoFuel
    | S fuel' =>
        d0 <~ index j_days_in_month jm ;;
        let days_in_current_j_month :=
          if (jm =? 12) && is_shamsi_leap_year jy then 30 else d0 in
        if total <=? days_in_current_j_month then Ok (jm, total)
        else j_month_walk fuel' jy (total - days_in_current_j_month) (jm + 1) jd
    end
  else Ok (jm, jd).

Definition gregorian_to_shamsi (gregorian_year gregorian_month gregorian_day : Z)
  : result (Z * Z * Z) :=
  let gy := gregorian_year in
  let gm := gregorian_month in
  let gd := gregorian_day in
  let days_passed_gregorian := sum (slice g_days_in_month 1 gm) + gd in
  let days_passed_gregorian :=
    if (2 <? gm) && gregorian_leap gy
    then days_passed_gregorian + 1 else days_passed_gregorian in
  let jy := gy - 621 in
  let jy := if days_passed_gregorian <? 80 then jy - 1 else jy in
  let g_day_of_year_new_year :=
    if is_shamsi_leap_year (jy - 1) then 80 else 79 in
  let days_passed_shamsi := days_passed_gregorian - g_day_of_year_new_year in
  let days_passed_shamsi :=
    if days_passed_shamsi <? 1
    then (if is_shamsi_leap_year jy
          then days_passed_shamsi + 366 else days_passed_shamsi + 365)
    else days_passed_shamsi in
  r <~ j_month_walk walk_fuel jy days_passed_shamsi 1 0 ;;
  let '(jm, jd) := r in Ok (jy, jm, jd).

(** ** Month metadata *)

Definition shamsi_month_names : list string :=
  [EmptyString; "Farvardin"; "Ordibehesht"; "Khordad"; "Tir"; "Mordad"; "Shahrivar";
   "Mehr"; "Aban"; "Azar"; "Dey"; "Bahman"; "Esfand"]%string.

Definition get_shamsi_month_name (month_number : Z) : result string :=
  index shamsi_month_names month_number.

Definition get_days_in_shamsi_month (shamsi_year shamsi_month : Z) : result Z :=
  if (1 <=? shamsi_month) && (shamsi_month <=? 6) then Ok 31
  else if (7 <=? shamsi_month) && (shamsi_month <=? 11) then Ok 30
  else if shamsi_month =? 12
       then Ok (if is_shamsi_leap_year shamsi_year then 30 else 29)
  else Raise ValueError.

(** ** Validity of dates *)

(** Length of Gregorian month [gm] of year [gy], as the month walk of
    [shamsi_to_gregorian] computes it: the table entry, 29 for February of a
    Gregorian leap year. *)
Definition days_in_gregorian_month (gy gm : Z) : Z :=
  if (gm =? 2) && gregorian_leap gy then 29
  else nth (Z.to_nat gm) g_days_in_month 0.

Definition valid_gregorian (gy gm gd : Z) : bool :=
  (1 <=? gm) && (gm <=? 12) && (1 <=? gd)
  && (gd <=? days_in_gregorian_month gy gm).

Definition valid_shamsi (jy jm jd : Z) : bool :=
  match get_days_in_shamsi_month jy jm with
  | Ok n => (1 <=? jd) && (jd <=? n)
  | _ => false
  end.

(** Sum of the month lengths of a Shamsi year over a list of months. *)
Fixpoint sum_days_in_shamsi_months (y : Z) (months : list Z) : result Z :=
  match months with
  | [] => Ok 0
  | m :: ms =>
      d <~ get_days_in_shamsi_month y m ;;
      s <~ sum_days_in_shamsi_months y ms ;;
      Ok (d + s)
  end.

(** Number of Shamsi leap years among the [n] years starting at [y]. *)
Fixpoint count_leap_years (y : Z) (n : nat) : nat :=
  match n with
  | O => 0%nat
  | S n' => ((if is_shamsi_leap_year y then 1 else 0) + count_leap_years (y + 1) n')%nat
  end.

Definition leap_residues : list Z := [1; 5; 9; 13; 17; 21; 26; 30].

(** ** Calendar display *)

(** *** [datetime.date] of Python's standard library

    The program builds a [datetime.date] and asks for its [weekday()].  The
    constructor of CPython first converts its three arguments to C integers
    and raises [OverflowError] when one does not fit; it then accepts years
    [MINYEAR = 1] to [MAXYEAR = 9999], months 1 to 12 and days of the month,
    and raises [ValueError] otherwise.  [weekday()] is
    [(toordinal() + 6) % 7] over the proleptic Gregorian ordinal in which
    1 January of year 1 is day 1 (Monday is 0, Sunday is 6). *)
Module Datetime.

Record date : Set := mkdate { year : Z; month : Z; day : Z }.

Definition MINYEAR : Z := 1.
Definition MAXYEAR : Z := 9999.

Definition INT_MIN : Z := -2147483648.
Definition INT_MAX : Z := 2147483647.

(** The value fits a C [int]. *)
Definition fits_int (x : Z) : bool := (INT_MIN <=? x) && (x <=? INT_MAX).

Definition new_date (y m d : Z) : result date :=
  if negb (fits_int y && fits_int m && fits_int d) then Raise OverflowError
  else if negb ((MINYEAR <=? y) && (y <=? MAXYEAR)) then Raise ValueError
  else if negb ((1 <=? m) && (m <=? 12)) then Raise ValueError
  else if negb ((1 <=? d) && (d <=? days_in_gregorian_month y m)) then Raise ValueError
  else Ok (mkdate y m d).

Definition days_before_year (y : Z) : Z :=
  let p := y - 1 in p * 365 + p / 4 - p / 100 + p / 400.

Definition days_before_month (y m : Z) : Z :=
  sum (slice g_days_in_month 1 m)
  + (if (2 <? m) && gregorian_leap y then 1 else 0).

Definition toordinal (dt : date) : Z :=
  days_before_year (year dt) + days_before_month (year dt) (month dt) + day dt.

Definition weekday (dt : date) : Z := (toordinal dt + 6) mod 7.

End Datetime.

(** *** Standard output

    Each call of [print] appends one chunk (its text followed by its [end])
    to the output; a computation yields the chunks written so far together
    with its outcome, so what was printed before an exception is kept. *)
Module Out.

Definition M (A : Type) : Type := (list string * result A)%type.

Definition ret {A : Type} (a : A) : M A := ([], Ok a).
Definition lift {A : Type} (r : result A) : M A := ([], r).
Definition print (s e : string) : M unit := ([String.append s e], Ok tt).

Definition bind {A B : Type} (m : M A) (k : A -> M B) : M B :=
  match m with
  | (o, Ok a) => let '(o', r) := k a in (o ++ o', r)
  | (o, Raise e) => (o, Raise e)
  | (o, NoFuel) => (o, NoFuel)
  end.

End Out.

Notation "x <<~ c1 ;; c2" := (Out.bind c1 (fun x => c2))
  (at level 100, c1 at next level, right associativity).

Definition ESC : ascii := "027"%char.
Definition nl : string := String "010"%char EmptyString.
Definition BLACK : string := String ESC "[30m".
Definition WHITE_BACKGROUND : string := String ESC "[107m".
Definition RESET : string := String ESC "[0m".

Local Infix "+++" := String.append (at level 60, right associativity).

(** The [while current_day_in_loop <= num_days_in_month] loop. *)
Fixpoint day_loop (fuel : nat) (leading_spaces num_days_in_month : Z)
    (current_shamsi_day : option Z) (current_day_in_loop : Z) : Out.M unit :=
  if current_day_in_loop <=? num_days_in_month then
    match fuel with
    | O => Out.lift NoFuel
    | S fuel' =>
        let day_num_str := str current_day_in_loop in
        let padding_needed := 3 - len day_num_str in
        _ <<~ (match current_shamsi_day with
               | Some c =>
                   if current_day_in_loop =? c
                   then Out.print (mul " " padding_needed +++ BLACK
                                   +++ WHITE_BACKGROUND +++ day_num_str +++ RESET)
                                  EmptyString
                   else Out.print (fmt3 current_day_in_loop) EmptyString
               | None => Out.print (fmt3 current_day_in_loop) EmptyString
               end) ;;
        _ <<~ (if (leading_spaces + current_day_in_loop) mod 7 =? 0
               then Out.print EmptyString nl else Out.ret tt) ;;
        day_loop fuel' leading_spaces num_days_in_month current_shamsi_day
                 (current_day_in_loop + 1)
    end
  else Out.ret tt.

Definition print_shamsi_calendar (year month : Z) (current_shamsi_day : option Z)
  : Out.M unit :=
  month_name <<~ Out.lift (get_shamsi_month_name month) ;;
  _ <<~ Out.print (nl +++ "      " +++ month_name +++ " " +++ str year) nl ;;
  _ <<~ Out.print " Sa Su Mo Tu We Th Fr" nl ;;
  g <<~ Out.lift (shamsi_to_gregorian year month 1) ;;
  let '(g_year_first_day, g_month_first_day, g_day_first_day) := g in
  first_day_of_month <<~
    Out.lift (Datetime.new_date g_year_first_day g_month_first_day g_day_first_day) ;;
  let leading_spaces := (Datetime.weekday first_day_of_month + 2) mod 7 in
  _ <<~ Out.print (mul "   " leading_spaces) EmptyString ;;
  num_days_in_month <<~ Out.lift (get_days_in_shamsi_month year month) ;;
  _ <<~ day_loop (Z.to_nat num_days_in_month) leading_spaces num_days_in_month
                 current_shamsi_day 1 ;;
  _ <<~ (if negb ((leading_spaces + num_days_in_month) mod 7 =? 0)
         then Out.print EmptyString nl else Out.ret tt) ;;
  Out.print EmptyString nl.

(** A chunk carries the highlight marker when the escape sequence
    [BLACK + WHITE_BACKGROUND] occurs in it. *)
Definition marker : string := BLACK +++ WHITE_BACKGROUND.

Fixpoint contains (pat s : string) : bool :=
  String.prefix pat s
  || match s with
     | EmptyString => false
     | String _ s' => contains pat s'
     end.

Definition highlighted_cells (out : list string) : nat :=
  length (List.filter (contains marker) out).

(** ** Auxiliary definitions used by the proofs *)

(** The integers [lo], [lo + 1], ..., [lo + n - 1]. *)
Definition Zrange (lo : Z) (n : nat) : list Z :=
  map (fun i => lo + Z.of_nat i) (seq 0 n).

(** The leap test on the residue alone. *)
Definition leap_residue (r : Z) : bool :=
  (r =? 1) || (r =? 5) || (r =? 9) || (r =? 13) || (r =? 17)
  || (r =? 21) || (r =? 26) || (r =? 30).

Fixpoint count_leap_residues (r : Z) (n : nat) : nat :=
  match n with
  | O => 0%nat
  | S n' => ((if leap_residue r then 1 else 0)
             + count_leap_residues ((r + 1) mod 33) n')%nat
  end.

(** Day of the year of a Gregorian date, as [gregorian_to_shamsi] computes
    [days_passed_gregorian]. *)
Definition gregorian_day_of_year (gy gm gd : Z) : Z :=
  let days_passed_gregorian := sum (slice g_days_in_month 1 gm) + gd in
  if (2 <? gm) && gregorian_leap gy
  then days_passed_gregorian + 1 else days_passed_gregorian.

(** Day of the year of a Shamsi date, as [shamsi_to_gregorian] computes
    [days_passed_shamsi]. *)
Definition shamsi_day_of_year (jy jm jd : Z) : Z :=
  let j_days :=
    if is_shamsi_leap_year jy
    then <[12%nat := 30]> j_days_in_month else j_days_in_month in
  sum (slice j_days 1 jm) + jd.

Definition gregorian_year_length (gy : Z) : Z :=
  365 + (if gregorian_leap gy then 1 else 0).

Definition shamsi_year_length (jy : Z) : Z :=
  if is_shamsi_leap_year jy then 366 else 365.

(** What the Gregorian month walk has to deliver on [total]: a valid month
    and day whose day of the year is [total]. *)
Definition g_walk_check (gy total : Z) : bool :=
  match g_month_walk walk_fuel gy total 1 0 with
  | Ok (gm, gd) =>
      valid_gregorian gy gm gd && (gregorian_day_of_year gy gm gd =? total)
  | _ => false
  end.

Definition j_walk_check (jy total : Z) : bool :=
  match j_month_walk walk_fuel jy total 1 0 with
  | Ok (jm, jd) =>
      valid_shamsi jy jm jd && (shamsi_day_of_year jy jm jd =? total)
  | _ => false
  end.

(** Range of the day of the year over the days of one month: the days
    before month [m] are not negative and the month ends within the year. *)
Definition shamsi_prefix_check (y m : Z) : bool :=
  match get_days_in_shamsi_month y m with
  | Ok n => (0 <=? shamsi_day_of_year y m 0)
            && (shamsi_day_of_year y m 0 + n <=? shamsi_year_length y)
  | _ => true
  end.

Definition gregorian_prefix_check (gy gm : Z) : bool :=
  (0 <=? gregorian_day_of_year gy gm 0)
  && (gregorian_day_of_year gy gm 0 + days_in_gregorian_month gy gm
      <=? gregorian_year_length gy).

(** Day of the Gregorian year on which the Shamsi year [jy] begins, less
    one ([g_day_of_year_new_year] in both converters). *)
Definition new_year_offset (jy : Z) : Z :=
  if is_shamsi_leap_year (jy - 1) then 80 else 79.

(** Occurrence of a character in a string. *)
Fixpoint has_char (c : ascii) (s : string) : bool :=
  match s with
  | EmptyString => false
  | String a s' => Ascii.eqb c a || has_char c s'
  end.

(** The highlight count of a month of [n] days with [h] to highlight. *)
Definition expected_highlights (lo n : Z) (h : option Z) : nat :=
  match h with
  | Some c => if (lo <=? c) && (c <=? n) then 1%nat else 0%nat
  | None => 0%nat
  end.

(** The two header chunks and what follows the leading blanks. *)
Definition header_month (name : string) (year : Z) : string :=
  (nl +++ "      " +++ name +++ " " +++ str year) +++ nl.

Definition header_week : string := " Sa Su Mo Tu We Th Fr" +++ nl.

Definition month_body (leading_spaces num_days_in_month : Z)
    (current_shamsi_day : option Z) : Out.M unit :=
  _ <<~ day_loop (Z.to_nat num_days_in_month) leading_spaces num_days_in_month
                 current_shamsi_day 1 ;;
  _ <<~ (if negb ((leading_spaces + num_days_in_month) mod 7 =? 0)
         then Out.print EmptyString nl else Out.ret tt) ;;
  Out.print EmptyString nl.

(** The month walks undo the day of the year of a valid date. *)
Definition j_inverse_check (y m d : Z) : bool :=
  implb (valid_shamsi y m d)
    match j_month_walk walk_fuel y (shamsi_day_of_year y m d) 1 0 with
    | Ok (m', d') => (m' =? m) && (d' =? d)
    | _ => false
    end.

Definition g_inverse_check (gy gm gd : Z) : bool :=
  implb (valid_gregorian gy gm gd)
    match g_month_walk walk_fuel gy (gregorian_day_of_year gy gm gd) 1 0 with
    | Ok (gm', gd') => (gm' =? gm) && (gd' =? gd)
    | _ => false
    end.

(** One step of the month walks in terms of days of the year: month [m] has a
    table entry, the day of the year advances by its length, and stays
    within the year. *)
Definition g_step_check (gy gm : Z) : bool :=
  match index g_days_in_month gm with
  | Ok d0 =>
      (gregorian_day_of_year gy (gm + 1) 0
       =? gregorian_day_of_year gy gm 0
          + (if (gm =? 2) && gregorian_leap gy then 29 else d0))
      && (days_in_gregorian_month gy gm
          =? (if (gm =? 2) && gregorian_leap gy then 29 else d0))
      && (gregorian_day_of_year gy (gm + 1) 0 <=? gregorian_year_length gy)
  | _ => false
  end.

Definition j_step_check (jy jm : Z) : bool :=
  match index j_days_in_month jm with
  | Ok d0 =>
      (shamsi_day_of_year jy (jm + 1) 0
       =? shamsi_day_of_year jy jm 0
          + (if (jm =? 12) && is_shamsi_leap_year jy then 30 else d0))
      && match get_days_in_shamsi_month jy jm with
         | Ok n => n =? (if (jm =? 12) && is_shamsi_leap_year jy then 30 else d0)
         | _ => false
         end
      && (shamsi_day_of_year jy (jm + 1) 0 <=? shamsi_year_length jy)
  | _ => false
  end.

(** Days before a month begins, for the twelve months. *)
Definition j_prefix_max_check (jy jm : Z) : bool :=
  (0 <=? shamsi_day_of_year jy jm 0) && (shamsi_day_of_year jy jm 0 <=? 336).

Definition g_prefix_max_check (gy gm : Z) : bool :=
  (0 <=? gregorian_day_of_year gy gm 0)
  && (gregorian_day_of_year gy gm 0 + 31 <=? gregorian_year_length gy).

(** The leap pattern after a leap residue: three common years, then a leap
    year after four or after five years. *)
Definition leap_spacing_check (r : Z) : bool :=
  implb (leap_residue r)
    (negb (leap_residue ((r + 1) mod 33))
     && negb (leap_residue ((r + 2) mod 33))
     && negb (leap_residue ((r + 3) mod 33))
     && xorb (leap_residue ((r + 4) mod 33)) (leap_residue ((r + 5) mod 33))).

(** The chunk the day loop writes for day [i]: the highlighted cell when [i]
    is the day to highlight, the plain cell otherwise. *)
Definition day_cell (h : option Z) (i : Z) : string :=
  match h with
  | Some c =>
      if i =? c
      then mul " " (3 - len (str i)) +++ BLACK +++ WHITE_BACKGROUND
           +++ str i +++ RESET
      else fmt3 i
  | None => fmt3 i
  end.

(** The chunks of one iteration of the day loop: the cell, and a line break
    when [leading_spaces + i] is a multiple of 7. *)
Definition day_chunks (lead : Z) (h : option Z) (i : Z) : list string :=
  day_cell h i :: (if (lead + i) mod 7 =? 0 then [nl] else []).

(** Number of chunks that are a bare line break. *)
Definition line_breaks (out : list string) : nat :=
  length (List.filter (String.eqb nl) out).

Definition NL : ascii := "010"%char.

(** Width of a day cell on the screen. *)
Definition cell_width_check (i : Z) : bool :=
  (len (fmt3 i) =? 3)
  && (len (mul " " (3 - len (str i))) + len (str i) =? 3).

(** *** The year view of the command line

    With one positional argument the program takes it as a year and prints
    its twelve months, highlighting the current day in the current month; a
    [ValueError] is answered by the usage lines and exit status 1, any other
    exception is not caught and ends the program, the normal end is
    [sys.exit(0)].  The current Shamsi date is a parameter. *)
Definition usage_lines : list string :=
  ["Usage: scal [month] [year]" +++ nl;
   "       scal [year]" +++ nl;
   "       scal (for current month)" +++ nl].

(** The [for m in range(1, 13)] loop. *)
Fixpoint year_months (months : list Z)
    (target_year current_shamsi_year current_shamsi_month current_shamsi_day : Z)
  : Out.M unit :=
  match months with
  | [] => Out.ret tt
  | m :: ms =>
      _ <<~ (if (target_year =? current_shamsi_year)
                && (m =? current_shamsi_month)
             then print_shamsi_calendar target_year m (Some current_shamsi_day)
             else print_shamsi_calendar target_year m None) ;;
      year_months ms target_year current_shamsi_year current_shamsi_month
                  current_shamsi_day
  end.

(** The branch as a whole: what is printed and the exit status. *)
Definition year_view
    (target_year current_shamsi_year current_shamsi_month current_shamsi_day : Z)
  : list string * result Z :=
  match year_months [1; 2; 3; 4; 5; 6; 7; 8; 9; 10; 11; 12] target_year
          current_shamsi_year current_shamsi_month current_shamsi_day with
  | (o, Ok _) => (o, Ok 0)
  | (o, Raise ValueError) => (o ++ usage_lines, Ok 1)
  | (o, Raise IndexError) => (o, Raise IndexError)
  | (o, Raise OverflowError) => (o, Raise OverflowError)
  | (o, NoFuel) => (o, NoFuel)
  end.

(** The first day of month [m] of year [y] falls in a Gregorian year that
    [datetime.date] accepts. *)
Definition date_in_range (y m : Z) : bool :=
  match shamsi_to_gregorian y m 1 with
  | Ok (gy, _, _) => (1 <=? gy) && (gy <=? 9999)
  | _ => false
  end.

(** The day the year view asks month [m] to highlight. *)
Definition year_highlight (target_year cy cm cd m : Z) : option Z :=
  if (target_year =? cy) && (m =? cm) then Some cd else None.

(** * Properties *)

(** ** Checking a property over an interval of integers by evaluation *)

Lemma Zrange_forallb (P : Z -> bool) (lo : Z) (n : nat) :
  forallb P (Zrange lo n) = true ->
  forall z, lo <= z < lo + Z.of_nat n -> P z = true.
Proof.
  intros H z Hz.
  rewrite forallb_forall in H. apply H.
  unfold Zrange. apply in_map_iff.
  exists (Z.to_nat (z - lo)). split; [lia | apply in_seq; lia].
Qed.

(** ** Leap-year oracle *)

Section LeapYear.

Lemma is_shamsi_leap_year_residue y :
  is_shamsi_leap_year y = leap_residue ((y + 2346) mod 33).
Proof. reflexivity. Qed.

Lemma residue_succ y : (y + 1 + 2346) mod 33 = ((y + 2346) mod 33 + 1) mod 33.
Proof.
  rewrite Zplus_mod_idemp_l. f_equal. lia.
Qed.

Lemma count_leap_years_residue n :
  forall y, count_leap_years y n = count_leap_residues ((y + 2346) mod 33) n.
Proof.
  induction n as [|n IH]; intros y; [reflexivity|].
  cbn [count_leap_years count_leap_residues].
  rewrite IH, residue_succ, is_shamsi_leap_year_residue. reflexivity.
Qed.

Lemma leap_residue_In r : leap_residue r = true <-> In r leap_residues.
Proof.
  unfold leap_residue, leap_residues. cbn [In].
  rewrite !orb_true_iff, !Z.eqb_eq. intuition (subst; auto; try lia).
Qed.

Lemma is_shamsi_leap_year_period y :
  is_shamsi_leap_year y = is_shamsi_leap_year (y + 33).
Proof.
  rewrite !is_shamsi_leap_year_residue. f_equal.
  replace (y + 33 + 2346) with (y + 2346 + 1 * 33) by lia.
  now rewrite Z_mod_plus_full.
Qed.

(** Two consecutive years are never both leap. *)
Lemma leap_not_consecutive y :
  is_shamsi_leap_year (y - 1) = true -> is_shamsi_leap_year y = false.
Proof.
  rewrite !is_shamsi_leap_year_residue.
  replace (y + 2346) with (y - 1 + 1 + 2346) by lia.
  rewrite residue_succ.
  pose proof (Z.mod_pos_bound (y - 1 + 2346) 33 ltac:(lia)) as Hr.
  revert Hr. generalize ((y - 1 + 2346) mod 33) as r. intros r Hr H.
  pose proof (Zrange_forallb
    (fun r => implb (leap_residue r) (negb (leap_residue ((r + 1) mod 33)))) 0 33)
    as Hc.
  specialize (Hc ltac:(vm_compute; reflexivity) r ltac:(lia)).
  cbv beta in Hc. rewrite H in Hc. cbn [implb] in Hc.
  now apply negb_true_iff in Hc.
Qed.

End LeapYear.

(** C3: for every integer year, [is_shamsi_leap_year] is true exactly when
    the floored remainder [(year + 2346) mod 33], which lies in [0, 33), is
    one of 1, 5, 9, 13, 17, 21, 26, 30; the function is total, has period 33,
    and every 33 consecutive years contain exactly 8 leap years. *)
Theorem is_shamsi_leap_year_spec (y : Z) :
  (is_shamsi_leap_year y = true <-> In ((y + 2346) mod 33) leap_residues)
  /\ 0 <= (y + 2346) mod 33 < 33
  /\ is_shamsi_leap_year y = is_shamsi_leap_year (y + 33)
  /\ count_leap_years y 33 = 8%nat.
Proof.
  split; [|split; [|split]].
  - rewrite is_shamsi_leap_year_residue. apply leap_residue_In.
  - apply Z.mod_pos_bound. lia.
  - apply is_shamsi_leap_year_period.
  - rewrite count_leap_years_residue.
    pose proof (Z.mod_pos_bound (y + 2346) 33 ltac:(lia)) as Hr.
    apply Nat.eqb_eq.
    apply (Zrange_forallb (fun r => Nat.eqb (count_leap_residues r 33) 8) 0 33);
      [vm_compute; reflexivity | lia].
Qed.

(** ** Month metadata *)

(** C7: [get_days_in_shamsi_month] gives 31 for months 1 to 6, 30 for months
    7 to 11, for month 12 the value 30 in a leap year and 29 otherwise, and
    raises [ValueError] exactly when the month is outside 1 to 12. *)
Theorem get_days_in_shamsi_month_spec (y m : Z) :
  (1 <= m <= 6 -> get_days_in_shamsi_month y m = Ok 31)
  /\ (7 <= m <= 11 -> get_days_in_shamsi_month y m = Ok 30)
  /\ (m = 12 ->
      get_days_in_shamsi_month y m
      = Ok (if is_shamsi_leap_year y then 30 else 29))
  /\ ((exists e, get_days_in_shamsi_month y m = Raise e) <-> ~ 1 <= m <= 12)
  /\ (~ 1 <= m <= 12 -> get_days_in_shamsi_month y m = Raise ValueError)
  /\ get_days_in_shamsi_month y m <> NoFuel.
Proof.
  unfold get_days_in_shamsi_month.
  destruct (Z.leb_spec 1 m), (Z.leb_spec m 6), (Z.leb_spec 7 m),
    (Z.leb_spec m 11), (Z.eqb_spec m 12); cbn [andb];
    repeat split; intros; try lia; try reflexivity; try discriminate;
    try (match goal with H : exists _, _ |- _ => destruct H; discriminate end);
    try (exists ValueError; reflexivity).
Qed.

(** C6: the twelve month lengths of a Shamsi year add up to 366 in a leap
    year and to 365 otherwise. *)
Theorem sum_days_in_shamsi_months_year (y : Z) :
  sum_days_in_shamsi_months y [1; 2; 3; 4; 5; 6; 7; 8; 9; 10; 11; 12]
  = Ok (if is_shamsi_leap_year y then 366 else 365).
Proof.
  cbn [sum_days_in_shamsi_months].
  unfold get_days_in_shamsi_month. cbn [Z.leb Z.eqb Z.compare Pos.compare
    Pos.compare_cont andb Pos.eqb Py.bind].
  destruct (is_shamsi_leap_year y); reflexivity.
Qed.

Lemma get_shamsi_month_name_out m :
  m < -13 \/ 12 < m -> get_shamsi_month_name m = Raise IndexError.
Proof.
  intros H. unfold get_shamsi_month_name, index.
  change (Z.of_nat (length shamsi_month_names)) with 13.
  destruct (Z.ltb_spec m 0).
  - destruct (Z.ltb_spec (m + 13) 0); [reflexivity | lia].
  - destruct (Z.ltb_spec m 0); [lia|].
    destruct (Z.leb_spec 13 m); [reflexivity | lia].
Qed.

Lemma get_shamsi_month_name_in m :
  -13 <= m <= 12 -> exists s, get_shamsi_month_name m = Ok s.
Proof.
  intros H.
  pose proof (Zrange_forallb
    (fun m => match get_shamsi_month_name m with Ok _ => true | _ => false end)
    (-13) 26 ltac:(vm_compute; reflexivity) m ltac:(lia)) as Hc.
  cbv beta in Hc. destruct (get_shamsi_month_name m); try discriminate; eauto.
Qed.

(** C8, as the code has it: the twelve names are returned for months 1 to
    12; the lookup raises [IndexError] exactly for months above 12 or below
    -13; for months -13 to 0 Python's indexing does not fail: 0 and -13 give
    the empty first entry of the table and a negative month [m] gives the
    entry of month [m + 13]. *)
Theorem get_shamsi_month_name_spec (m : Z) :
  (get_shamsi_month_name 1 = Ok "Farvardin"%string
   /\ get_shamsi_month_name 2 = Ok "Ordibehesht"%string
   /\ get_shamsi_month_name 3 = Ok "Khordad"%string
   /\ get_shamsi_month_name 4 = Ok "Tir"%string
   /\ get_shamsi_month_name 5 = Ok "Mordad"%string
   /\ get_shamsi_month_name 6 = Ok "Shahrivar"%string
   /\ get_shamsi_month_name 7 = Ok "Mehr"%string
   /\ get_shamsi_month_name 8 = Ok "Aban"%string
   /\ get_shamsi_month_name 9 = Ok "Azar"%string
   /\ get_shamsi_month_name 10 = Ok "Dey"%string
   /\ get_shamsi_month_name 11 = Ok "Bahman"%string
   /\ get_shamsi_month_name 12 = Ok "Esfand"%string)
  /\ ((exists e, get_shamsi_month_name m = Raise e) <-> (m < -13 \/ 12 < m))
  /\ (m < -13 \/ 12 < m -> get_shamsi_month_name m = Raise IndexError)
  /\ (-13 <= m < 0 -> get_shamsi_month_name m = get_shamsi_month_name (m + 13))
  /\ get_shamsi_month_name 0 = Ok EmptyString.
Proof.
  split; [repeat split; reflexivity|].
  split; [|split; [apply get_shamsi_month_name_out|split; [|reflexivity]]].
  - split.
    + intros [e He]. destruct (Z_lt_dec m (-13)); [lia|].
      destruct (Z_lt_dec 12 m); [lia|].
      destruct (get_shamsi_month_name_in m) as [s Hs]; [lia | congruence].
    + intros H. exists IndexError. now apply get_shamsi_month_name_out.
  - intros H.
    assert (Hm : m = -13 \/ m = -12 \/ m = -11 \/ m = -10 \/ m = -9 \/ m = -8
                 \/ m = -7 \/ m = -6 \/ m = -5 \/ m = -4 \/ m = -3 \/ m = -2
                 \/ m = -1) by lia.
    repeat (destruct Hm as [-> | Hm]; [reflexivity|]). subst m. reflexivity.
Qed.

(** C8 as stated fails: month 0 is outside 1 to 12 and the lookup returns
    the empty string instead of failing; month -1 returns [Esfand]. *)
Lemma get_shamsi_month_name_no_failure :
  ~ 1 <= 0 <= 12
  /\ get_shamsi_month_name 0 = Ok EmptyString
  /\ ~ 1 <= -1 <= 12
  /\ get_shamsi_month_name (-1) = Ok "Esfand"%string.
Proof. repeat split; try lia. Qed.

(** ** The month walks *)

Section MonthWalks.

Lemma index_NoFuel {A : Type} (l : list A) i : index l i <> NoFuel.
Proof.
  unfold index. destruct (_ || _); [discriminate|].
  destruct (l !! _); discriminate.
Qed.

Lemma index_g_days_high gm : 13 <= gm -> index g_days_in_month gm = Raise IndexError.
Proof.
  intros H. unfold index. change (Z.of_nat (length g_days_in_month)) with 13.
  destruct (Z.ltb_spec gm 0); [lia|].
  destruct (Z.ltb_spec gm 0); [lia|].
  destruct (Z.leb_spec 13 gm); [reflexivity | lia].
Qed.

Lemma index_j_days_high jm : 13 <= jm -> index j_days_in_month jm = Raise IndexError.
Proof.
  intros H. unfold index. change (Z.of_nat (length j_days_in_month)) with 13.
  destruct (Z.ltb_spec jm 0); [lia|].
  destruct (Z.ltb_spec jm 0); [lia|].
  destruct (Z.leb_spec 13 jm); [reflexivity | lia].
Qed.

Lemma g_month_walk_S fuel gy total gm gd :
  g_month_walk (S fuel) gy total gm gd
  = if 0 <? total then
      d0 <~ index g_days_in_month gm ;;
      let dim := if (gm =? 2) && gregorian_leap gy then 29 else d0 in
      if total <=? dim then Ok (gm, total)
      else g_month_walk fuel gy (total - dim) (gm + 1) gd
    else Ok (gm, gd).
Proof. reflexivity. Qed.

Lemma j_month_walk_S fuel jy total jm jd :
  j_month_walk (S fuel) jy total jm jd
  = if 0 <? total then
      d0 <~ index j_days_in_month jm ;;
      let dim := if (jm =? 12) && is_shamsi_leap_year jy then 30 else d0 in
      if total <=? dim then Ok (jm, total)
      else j_month_walk fuel jy (total - dim) (jm + 1) jd
    else Ok (jm, jd).
Proof. reflexivity. Qed.

(** The walks stop within [13 - gm + 1] iterations, whatever the input. *)
Lemma g_month_walk_fuel fuel : forall gy total gm gd,
  13 - gm < Z.of_nat (S fuel) ->
  g_month_walk (S fuel) gy total gm gd <> NoFuel.
Proof.
  induction fuel as [|fuel IH]; intros gy total gm gd H;
    rewrite g_month_walk_S; (destruct (0 <? total); [|discriminate]).
  - rewrite index_g_days_high by lia. discriminate.
  - destruct (index g_days_in_month gm) eqn:E; cbn [Py.bind];
      try discriminate; [|now apply index_NoFuel in E].
    cbv zeta. destruct (total <=? _); [discriminate|]. apply IH. lia.
Qed.

Lemma j_month_walk_fuel fuel : forall jy total jm jd,
  13 - jm < Z.of_nat (S fuel) ->
  j_month_walk (S fuel) jy total jm jd <> NoFuel.
Proof.
  induction fuel as [|fuel IH]; intros jy total jm jd H;
    rewrite j_month_walk_S; (destruct (0 <? total); [|discriminate]).
  - rewrite index_j_days_high by lia. discriminate.
  - destruct (index j_days_in_month jm) eqn:E; cbn [Py.bind];
      try discriminate; [|now apply index_NoFuel in E].
    cbv zeta. destruct (total <=? _); [discriminate|]. apply IH. lia.
Qed.

(** The walks look at the year only through its leap test. *)
Lemma g_month_walk_leap fuel : forall gy gy' total gm gd,
  gregorian_leap gy = gregorian_leap gy' ->
  g_month_walk fuel gy total gm gd = g_month_walk fuel gy' total gm gd.
Proof.
  induction fuel as [|fuel IH]; intros gy gy' total gm gd H;
    cbn [g_month_walk]; [reflexivity|].
  rewrite H. destruct (0 <? total); [|reflexivity].
  destruct (index g_days_in_month gm); cbn [Py.bind]; try reflexivity.
  destruct (total <=? _); [reflexivity|]. now apply IH.
Qed.

Lemma j_month_walk_leap fuel : forall jy jy' total jm jd,
  is_shamsi_leap_year jy = is_shamsi_leap_year jy' ->
  j_month_walk fuel jy total jm jd = j_month_walk fuel jy' total jm jd.
Proof.
  induction fuel as [|fuel IH]; intros jy jy' total jm jd H;
    cbn [j_month_walk]; [reflexivity|].
  rewrite H. destruct (0 <? total); [|reflexivity].
  destruct (index j_days_in_month jm); cbn [Py.bind]; try reflexivity.
  destruct (total <=? _); [reflexivity|]. now apply IH.
Qed.

Lemma g_walk_check_leap gy gy' total :
  gregorian_leap gy = gregorian_leap gy' ->
  g_walk_check gy total = g_walk_check gy' total.
Proof.
  intros H. unfold g_walk_check.
  rewrite (g_month_walk_leap _ gy gy') by exact H.
  destruct (g_month_walk _ _ _ _ _) as [[gm gd]| |]; try reflexivity.
  unfold valid_gregorian, days_in_gregorian_month, gregorian_day_of_year.
  now rewrite H.
Qed.

Lemma j_walk_check_leap jy jy' total :
  is_shamsi_leap_year jy = is_shamsi_leap_year jy' ->
  j_walk_check jy total = j_walk_check jy' total.
Proof.
  intros H. unfold j_walk_check.
  rewrite (j_month_walk_leap _ jy jy') by exact H.
  destruct (j_month_walk _ _ _ _ _) as [[jm jd]| |]; try reflexivity.
  unfold valid_shamsi, get_days_in_shamsi_month, shamsi_day_of_year.
  now rewrite H.
Qed.

(** On a day of the year, the Gregorian walk returns the month and day. *)
Lemma g_month_walk_spec gy total :
  1 <= total <= gregorian_year_length gy -> g_walk_check gy total = true.
Proof.
  unfold gregorian_year_length. intros H.
  destruct (gregorian_leap gy) eqn:E.
  - rewrite (g_walk_check_leap gy 2024) by (rewrite E; reflexivity).
    apply (Zrange_forallb (g_walk_check 2024) 1 366);
      [vm_compute; reflexivity | lia].
  - rewrite (g_walk_check_leap gy 2023) by (rewrite E; reflexivity).
    apply (Zrange_forallb (g_walk_check 2023) 1 365);
      [vm_compute; reflexivity | lia].
Qed.

Lemma j_month_walk_spec jy total :
  1 <= total <= shamsi_year_length jy -> j_walk_check jy total = true.
Proof.
  unfold shamsi_year_length. intros H.
  destruct (is_shamsi_leap_year jy) eqn:E.
  - rewrite (j_walk_check_leap jy 1404) by (rewrite E; reflexivity).
    apply (Zrange_forallb (j_walk_check 1404) 1 366);
      [vm_compute; reflexivity | lia].
  - rewrite (j_walk_check_leap jy 1403) by (rewrite E; reflexivity).
    apply (Zrange_forallb (j_walk_check 1403) 1 365);
      [vm_compute; reflexivity | lia].
Qed.

End MonthWalks.

(** ** Date converter: valid dates are sent to valid dates *)

Section Converter.

Lemma shamsi_day_of_year_add y m d :
  shamsi_day_of_year y m d = shamsi_day_of_year y m 0 + d.
Proof. unfold shamsi_day_of_year. lia. Qed.

Lemma gregorian_day_of_year_add gy gm gd :
  gregorian_day_of_year gy gm gd = gregorian_day_of_year gy gm 0 + gd.
Proof. unfold gregorian_day_of_year. destruct (_ && _); lia. Qed.

Lemma get_days_in_shamsi_month_Ok y m n :
  get_days_in_shamsi_month y m = Ok n -> 1 <= m <= 12.
Proof.
  unfold get_days_in_shamsi_month.
  destruct (Z.leb_spec 1 m), (Z.leb_spec m 6), (Z.leb_spec 7 m),
    (Z.leb_spec m 11), (Z.eqb_spec m 12); cbn [andb];
    intros E; try discriminate; lia.
Qed.

Lemma shamsi_prefix_check_leap y y' m :
  is_shamsi_leap_year y = is_shamsi_leap_year y' ->
  shamsi_prefix_check y m = shamsi_prefix_check y' m.
Proof.
  intros H.
  unfold shamsi_prefix_check, get_days_in_shamsi_month, shamsi_day_of_year,
    shamsi_year_length.
  now rewrite H.
Qed.

Lemma gregorian_prefix_check_leap gy gy' gm :
  gregorian_leap gy = gregorian_leap gy' ->
  gregorian_prefix_check gy gm = gregorian_prefix_check gy' gm.
Proof.
  intros H.
  unfold gregorian_prefix_check, gregorian_day_of_year,
    days_in_gregorian_month, gregorian_year_length.
  now rewrite H.
Qed.

Lemma shamsi_prefix_check_true y m : shamsi_prefix_check y m = true.
Proof.
  destruct (get_days_in_shamsi_month y m) as [n| |] eqn:E;
    [|unfold shamsi_prefix_check; now rewrite E ..].
  apply get_days_in_shamsi_month_Ok in E.
  destruct (is_shamsi_leap_year y) eqn:L.
  - rewrite (shamsi_prefix_check_leap y 1404) by (rewrite L; reflexivity).
    apply (Zrange_forallb (shamsi_prefix_check 1404) 1 12);
      [vm_compute; reflexivity | lia].
  - rewrite (shamsi_prefix_check_leap y 1403) by (rewrite L; reflexivity).
    apply (Zrange_forallb (shamsi_prefix_check 1403) 1 12);
      [vm_compute; reflexivity | lia].
Qed.

Lemma gregorian_prefix_check_true gy gm :
  1 <= gm <= 12 -> gregorian_prefix_check gy gm = true.
Proof.
  intros Hm.
  destruct (gregorian_leap gy) eqn:L.
  - rewrite (gregorian_prefix_check_leap gy 2024) by (rewrite L; reflexivity).
    apply (Zrange_forallb (gregorian_prefix_check 2024) 1 12);
      [vm_compute; reflexivity | lia].
  - rewrite (gregorian_prefix_check_leap gy 2023) by (rewrite L; reflexivity).
    apply (Zrange_forallb (gregorian_prefix_check 2023) 1 12);
      [vm_compute; reflexivity | lia].
Qed.

Lemma shamsi_day_of_year_bounds y m d :
  valid_shamsi y m d = true ->
  1 <= shamsi_day_of_year y m d <= shamsi_year_length y.
Proof.
  unfold valid_shamsi. intros H.
  pose proof (shamsi_prefix_check_true y m) as Hc.
  unfold shamsi_prefix_check in Hc.
  destruct (get_days_in_shamsi_month y m) as [n| |]; try discriminate.
  rewrite shamsi_day_of_year_add. lia.
Qed.

Lemma gregorian_day_of_year_bounds gy gm gd :
  valid_gregorian gy gm gd = true ->
  1 <= gregorian_day_of_year gy gm gd <= gregorian_year_length gy.
Proof.
  unfold valid_gregorian. intros H.
  pose proof (gregorian_prefix_check_true gy gm ltac:(lia)) as Hc.
  unfold gregorian_prefix_check in Hc.
  rewrite gregorian_day_of_year_add. lia.
Qed.

Lemma year_length_bounds gy jy :
  365 <= gregorian_year_length gy <= 366 /\ 365 <= shamsi_year_length jy <= 366.
Proof.
  unfold gregorian_year_length, shamsi_year_length.
  destruct (gregorian_leap gy), (is_shamsi_leap_year jy); lia.
Qed.

(** Day of the year of the new year plus the length of the year never
    exceeds 445: a leap year does not follow a leap year. *)
Lemma new_year_offset_bounds jy :
  79 <= new_year_offset jy <= 80
  /\ new_year_offset jy + shamsi_year_length jy <= 445.
Proof.
  unfold new_year_offset, shamsi_year_length.
  pose proof (leap_not_consecutive jy) as H.
  destruct (is_shamsi_leap_year (jy - 1)).
  - rewrite H by reflexivity. lia.
  - destruct (is_shamsi_leap_year jy); lia.
Qed.

(** The two converters in terms of days of the year. *)
Lemma shamsi_to_gregorian_eq y m d :
  shamsi_to_gregorian y m d
  = let total := new_year_offset y + shamsi_day_of_year y m d in
    let gy := y + 621 in
    if gregorian_year_length gy <? total
    then r <~ g_month_walk walk_fuel (gy + 1)
                (total - gregorian_year_length gy) 1 0 ;;
         let '(gm, gd) := r in Ok (gy + 1, gm, gd)
    else r <~ g_month_walk walk_fuel gy total 1 0 ;;
         let '(gm, gd) := r in Ok (gy, gm, gd).
Proof.
  unfold shamsi_to_gregorian, new_year_offset, shamsi_day_of_year,
    gregorian_year_length.
  cbv zeta. destruct (_ <? _); reflexivity.
Qed.

Lemma gregorian_to_shamsi_eq gy gm gd :
  gregorian_to_shamsi gy gm gd
  = let dpg := gregorian_day_of_year gy gm gd in
    let jy := if dpg <? 80 then gy - 621 - 1 else gy - 621 in
    let dps := dpg - new_year_offset jy in
    let dps := if dps <? 1 then dps + shamsi_year_length jy else dps in
    r <~ j_month_walk walk_fuel jy dps 1 0 ;;
    let '(jm, jd) := r in Ok (jy, jm, jd).
Proof.
  unfold gregorian_to_shamsi, new_year_offset, gregorian_day_of_year,
    shamsi_year_length.
  cbv zeta. destruct (_ <? 1); [destruct (is_shamsi_leap_year _)|]; reflexivity.
Qed.

(** [shamsi_to_gregorian] on a valid date: a valid date of the Gregorian
    year [y + 621] or of the next, at the day of the year the code aims at. *)
Lemma shamsi_to_gregorian_valid y m d :
  valid_shamsi y m d = true ->
  exists gy gm gd,
    shamsi_to_gregorian y m d = Ok (gy, gm, gd)
    /\ valid_gregorian gy gm gd = true
    /\ let total := new_year_offset y + shamsi_day_of_year y m d in
       (total <= gregorian_year_length (y + 621)
        /\ gy = y + 621 /\ gregorian_day_of_year gy gm gd = total)
       \/ (gregorian_year_length (y + 621) < total
           /\ gy = y + 622
           /\ gregorian_day_of_year gy gm gd
              = total - gregorian_year_length (y + 621)).
Proof.
  intros Hv. rewrite shamsi_to_gregorian_eq. cbv zeta.
  pose proof (shamsi_day_of_year_bounds _ _ _ Hv) as Hd.
  pose proof (new_year_offset_bounds y) as Ho.
  pose proof (year_length_bounds (y + 621) y) as Hl.
  pose proof (year_length_bounds (y + 621 + 1) y) as Hl'.
  set (total := new_year_offset y + shamsi_day_of_year y m d) in *.
  destruct (Z.ltb_spec (gregorian_year_length (y + 621)) total) as [Hw|Hw].
  - pose proof (g_month_walk_spec (y + 621 + 1)
                  (total - gregorian_year_length (y + 621)) ltac:(lia)) as W.
    unfold g_walk_check in W.
    destruct (g_month_walk _ _ _ _ _) as [[gm gd]| |]; try discriminate.
    apply andb_true_iff in W as [W1 W2]. apply Z.eqb_eq in W2.
    exists (y + 621 + 1), gm, gd. cbn [Py.bind].
    split; [reflexivity|]. split; [exact W1|]. right.
    repeat split; [exact Hw | lia | exact W2].
  - pose proof (g_month_walk_spec (y + 621) total ltac:(lia)) as W.
    unfold g_walk_check in W.
    destruct (g_month_walk _ _ _ _ _) as [[gm gd]| |]; try discriminate.
    apply andb_true_iff in W as [W1 W2]. apply Z.eqb_eq in W2.
    exists (y + 621), gm, gd. cbn [Py.bind].
    split; [reflexivity|]. split; [exact W1|]. left.
    repeat split; [exact Hw | exact W2].
Qed.

(** [gregorian_to_shamsi] on a valid date: a valid date of the Shamsi
    year [gy - 621] or of the year before. *)
Lemma gregorian_to_shamsi_valid gy gm gd :
  valid_gregorian gy gm gd = true ->
  exists jy jm jd,
    gregorian_to_shamsi gy gm gd = Ok (jy, jm, jd)
    /\ valid_shamsi jy jm jd = true
    /\ (jy = gy - 621 \/ jy = gy - 622).
Proof.
  intros Hv. rewrite gregorian_to_shamsi_eq. cbv zeta.
  pose proof (gregorian_day_of_year_bounds _ _ _ Hv) as Hd.
  pose proof (year_length_bounds gy 0) as [Hl _].
  set (dpg := gregorian_day_of_year gy gm gd) in *.
  set (jy := if dpg <? 80 then gy - 621 - 1 else gy - 621).
  pose proof (new_year_offset_bounds jy) as Ho.
  pose proof (year_length_bounds gy jy) as [_ Hj].
  assert (Hs : 1 <= (if dpg - new_year_offset jy <? 1
                     then dpg - new_year_offset jy + shamsi_year_length jy
                     else dpg - new_year_offset jy)
               <= shamsi_year_length jy).
  { destruct (Z.ltb_spec (dpg - new_year_offset jy) 1); lia. }
  pose proof (j_month_walk_spec jy _ Hs) as W.
  unfold j_walk_check in W.
  destruct (j_month_walk _ _ _ _ _) as [[jm jd]| |]; try discriminate.
  apply andb_true_iff in W as [W1 W2].
  exists jy, jm, jd. cbn [Py.bind].
  split; [reflexivity|]. split; [exact W1|].
  unfold jy. destruct (dpg <? 80); lia.
Qed.

End Converter.

(** ** Calendar display *)

Section Strings.

Lemma has_char_app c a b :
  has_char c (a +++ b) = has_char c a || has_char c b.
Proof.
  induction a as [|x a IH]; cbn [String.append has_char]; [reflexivity|].
  now rewrite IH, orb_assoc.
Qed.

Lemma contains_no_char c p s :
  has_char c s = false -> contains (String c p) s = false.
Proof.
  induction s as [|a s IH]; cbn [has_char contains String.prefix];
    [reflexivity|].
  intros H. apply orb_false_iff in H as [Hc Hs].
  rewrite (IH Hs), orb_false_r.
  destruct (ascii_dec c a) as [->|]; [|reflexivity].
  now rewrite Ascii.eqb_refl in Hc.
Qed.

Lemma prefix_app p s : String.prefix p (p +++ s) = true.
Proof.
  induction p as [|a p IH]; cbn [String.append String.prefix];
    [now destruct s|].
  destruct (ascii_dec a a); [exact IH | congruence].
Qed.

Lemma contains_app p a s : contains p (a +++ p +++ s) = true.
Proof.
  induction a as [|x a IH]; cbn [String.append].
  - destruct (p +++ s) eqn:E; cbn [contains]; rewrite <- E, prefix_app;
      reflexivity.
  - cbn [contains]. rewrite IH. apply orb_true_r.
Qed.

Lemma has_char_repeat c s k :
  has_char c s = false -> has_char c (repeat_nat s k) = false.
Proof.
  intros H. induction k as [|k IH]; cbn [repeat_nat]; [reflexivity|].
  now rewrite has_char_app, H, IH.
Qed.

Lemma has_char_uint u :
  has_char ESC (NilEmpty.string_of_uint u) = false.
Proof. induction u; cbn [NilEmpty.string_of_uint has_char]; auto. Qed.

(** [str(n)] is made of digits and a sign: it holds no escape character. *)
Lemma has_char_str n : has_char ESC (str n) = false.
Proof.
  unfold str, NilZero.string_of_int, NilZero.string_of_uint.
  destruct (Z.to_int n) as [u|u]; destruct u;
    cbn [has_char]; try reflexivity; apply has_char_uint.
Qed.

Lemma has_char_fmt3 n : has_char ESC (fmt3 n) = false.
Proof.
  unfold fmt3, mul.
  now rewrite has_char_app, has_char_repeat, has_char_str.
Qed.

Lemma no_marker s : has_char ESC s = false -> contains marker s = false.
Proof. apply contains_no_char. Qed.

Lemma marker_in_cell pad s :
  contains marker (pad +++ BLACK +++ WHITE_BACKGROUND +++ s +++ RESET) = true.
Proof.
  change (BLACK +++ WHITE_BACKGROUND +++ s +++ RESET)
    with (marker +++ s +++ RESET).
  apply contains_app.
Qed.

End Strings.

Section Display.

Lemma append_empty_r s : s +++ EmptyString = s.
Proof. induction s as [|a s IH]; cbn [String.append]; congruence. Qed.

(** Output and outcome of a sequence. *)
Lemma bind_eq {A B : Type} (m : Out.M A) (k : A -> Out.M B) :
  Out.bind m k
  = (fst m ++ match snd m with Ok a => fst (k a) | _ => [] end,
     match snd m with
     | Ok a => snd (k a)
     | Raise e => Raise e
     | NoFuel => NoFuel
     end).
Proof.
  destruct m as [o [a|e|]]; cbn [Out.bind fst snd].
  - destruct (k a); reflexivity.
  - now rewrite app_nil_r.
  - now rewrite app_nil_r.
Qed.

Lemma highlighted_cells_app a b :
  highlighted_cells (a ++ b) = (highlighted_cells a + highlighted_cells b)%nat.
Proof.
  unfold highlighted_cells. now rewrite List.filter_app, length_app.
Qed.

Lemma highlighted_cells_cons x a :
  highlighted_cells (x :: a)
  = ((if contains marker x then 1 else 0) + highlighted_cells a)%nat.
Proof.
  unfold highlighted_cells. cbn [List.filter].
  destruct (contains marker x); reflexivity.
Qed.

Lemma day_loop_S fuel lead n h cur :
  day_loop (S fuel) lead n h cur
  = if cur <=? n then
      _ <<~ (match h with
             | Some c =>
                 if cur =? c
                 then Out.print (mul " " (3 - len (str cur)) +++ BLACK
                                 +++ WHITE_BACKGROUND +++ str cur +++ RESET)
                                EmptyString
                 else Out.print (fmt3 cur) EmptyString
             | None => Out.print (fmt3 cur) EmptyString
             end) ;;
      _ <<~ (if (lead + cur) mod 7 =? 0
             then Out.print EmptyString nl else Out.ret tt) ;;
      day_loop fuel lead n h (cur + 1)
    else Out.ret tt.
Proof. reflexivity. Qed.

(** The day loop ends normally when given as many iterations as days are
    left, and highlights the day [h] when it is one of the days left. *)
Lemma day_loop_spec lead n h fuel : forall cur,
  n - cur + 1 <= Z.of_nat fuel ->
  snd (day_loop fuel lead n h cur) = Ok tt
  /\ highlighted_cells (fst (day_loop fuel lead n h cur))
     = expected_highlights cur n h.
Proof.
  induction fuel as [|fuel IH]; intros cur Hf.
  - cbn [day_loop]. destruct (Z.leb_spec cur n); [lia|].
    split; [reflexivity|]. unfold expected_highlights.
    destruct h as [c|]; [|reflexivity].
    destruct (Z.leb_spec cur c), (Z.leb_spec c n); try reflexivity; lia.
  - rewrite day_loop_S. destruct (Z.leb_spec cur n) as [Hc|Hc].
    + destruct (IH (cur + 1) ltac:(lia)) as [IHr IHc].
      assert (Hrest : forall b : bool,
        let rest :=
          _ <<~ (if b then Out.print EmptyString nl else Out.ret tt) ;;
          day_loop fuel lead n h (cur + 1) in
        snd rest = Ok tt
        /\ highlighted_cells (fst rest) = expected_highlights (cur + 1) n h).
      { intros b. cbv zeta. rewrite bind_eq.
        destruct b; cbn [Out.print Out.ret fst snd app String.append];
          (split; [exact IHr|]); [|exact IHc].
        rewrite highlighted_cells_cons, IHc. reflexivity. }
      destruct (Hrest ((lead + cur) mod 7 =? 0)) as [Hr1 Hr2].
      assert (Hcell : forall s,
        let all :=
          _ <<~ Out.print s EmptyString ;;
          _ <<~ (if (lead + cur) mod 7 =? 0
                 then Out.print EmptyString nl else Out.ret tt) ;;
          day_loop fuel lead n h (cur + 1) in
        snd all = Ok tt
        /\ highlighted_cells (fst all)
           = ((if contains marker s then 1 else 0)
              + expected_highlights (cur + 1) n h)%nat).
      { intros s. cbv zeta. rewrite bind_eq.
        cbn [Out.print fst snd app]. rewrite append_empty_r.
        split; [exact Hr1|]. now rewrite highlighted_cells_cons, Hr2. }
      unfold expected_highlights in *.
      destruct h as [c|].
      * destruct (Z.eqb_spec cur c) as [->|Hne].
        -- destruct (Hcell (mul " " (3 - len (str c)) +++ BLACK
                            +++ WHITE_BACKGROUND +++ str c +++ RESET))
             as [Hc1 Hc2].
           split; [exact Hc1|]. rewrite Hc2, marker_in_cell.
           destruct (Z.leb_spec (c + 1) c); [lia|].
           destruct (Z.leb_spec c c); [|lia].
           destruct (Z.leb_spec c n); [reflexivity | lia].
        -- destruct (Hcell (fmt3 cur)) as [Hc1 Hc2].
           split; [exact Hc1|].
           rewrite Hc2, (no_marker _ (has_char_fmt3 cur)).
           destruct (Z.leb_spec (cur + 1) c), (Z.leb_spec cur c);
             try reflexivity; lia.
      * destruct (Hcell (fmt3 cur)) as [Hc1 Hc2].
        split; [exact Hc1|].
        now rewrite Hc2, (no_marker _ (has_char_fmt3 cur)).
    + split; [reflexivity|]. unfold expected_highlights.
      destruct h as [c|]; [|reflexivity].
      destruct (Z.leb_spec cur c), (Z.leb_spec c n); try reflexivity; lia.
Qed.

(** The renderer, stage by stage, once the month name and the Gregorian
    date of day 1 are known. *)
Lemma print_shamsi_calendar_stages year month h name gy gm gd :
  get_shamsi_month_name month = Ok name ->
  shamsi_to_gregorian year month 1 = Ok (gy, gm, gd) ->
  print_shamsi_calendar year month h
  = match Datetime.new_date gy gm gd with
    | Ok dt =>
        let lead := (Datetime.weekday dt + 2) mod 7 in
        match get_days_in_shamsi_month year month with
        | Ok n =>
            (header_month name year :: header_week :: mul "   " lead
               :: fst (month_body lead n h),
             snd (month_body lead n h))
        | Raise e =>
            ([header_month name year; header_week; mul "   " lead], Raise e)
        | NoFuel =>
            ([header_month name year; header_week; mul "   " lead], NoFuel)
        end
    | Raise e => ([header_month name year; header_week], Raise e)
    | NoFuel => ([header_month name year; header_week], NoFuel)
    end.
Proof.
  intros Hn Hg. unfold print_shamsi_calendar. rewrite Hn, Hg.
  rewrite bind_eq. cbn [Out.lift fst snd app].
  rewrite bind_eq. cbn [Out.print fst snd app].
  rewrite bind_eq. cbn [Out.print fst snd app].
  rewrite bind_eq. cbn [Out.lift fst snd app].
  rewrite bind_eq. cbn [Out.lift fst snd app].
  fold (header_month name year). fold header_week.
  destruct (Datetime.new_date gy gm gd) as [dt| |]; try reflexivity.
  rewrite bind_eq. cbn [Out.print fst snd app]. rewrite append_empty_r.
  rewrite bind_eq. cbn [Out.lift fst snd app].
  destruct (get_days_in_shamsi_month year month) as [n| |]; reflexivity.
Qed.

End Display.

(** ** The claims on the converters *)

Lemma valid_shamsi_intro y m d n :
  get_days_in_shamsi_month y m = Ok n -> 1 <= d <= n -> valid_shamsi y m d = true.
Proof. unfold valid_shamsi. intros -> H. lia. Qed.

Lemma valid_shamsi_elim y m d :
  valid_shamsi y m d = true ->
  exists n, get_days_in_shamsi_month y m = Ok n /\ 1 <= d <= n /\ 1 <= m <= 12.
Proof.
  unfold valid_shamsi.
  destruct (get_days_in_shamsi_month y m) as [n| |] eqn:E; try discriminate.
  intros H. exists n. split; [reflexivity|]. split; [lia|].
  eapply get_days_in_shamsi_month_Ok, E.
Qed.

Lemma valid_gregorian_iff gy gm gd :
  valid_gregorian gy gm gd = true
  <-> 1 <= gm <= 12 /\ 1 <= gd <= days_in_gregorian_month gy gm.
Proof. unfold valid_gregorian. lia. Qed.

Lemma shamsi_to_gregorian_terminates y m d : shamsi_to_gregorian y m d <> NoFuel.
Proof.
  rewrite shamsi_to_gregorian_eq. cbv zeta. change walk_fuel with (S 12).
  destruct (_ <? _);
    (destruct (g_month_walk _ _ _ _ _) as [[gm gd]| |] eqn:E; cbn [Py.bind];
     try discriminate; apply g_month_walk_fuel in E; [contradiction | lia]).
Qed.

Lemma gregorian_to_shamsi_terminates gy gm gd : gregorian_to_shamsi gy gm gd <> NoFuel.
Proof.
  rewrite gregorian_to_shamsi_eq. cbv zeta. change walk_fuel with (S 12).
  destruct (j_month_walk _ _ _ _ _) as [[jm jd]| |] eqn:E; cbn [Py.bind];
    try discriminate; apply j_month_walk_fuel in E; [contradiction | lia].
Qed.

(** C2: a valid Shamsi date is converted to a valid Gregorian date (month 1
    to 12, day within the month, February having 29 days exactly in
    Gregorian leap years), and a valid Gregorian date is converted to a
    Shamsi date whose day lies within [get_days_in_shamsi_month] of the
    returned year and month. *)
Theorem conversions_return_valid_dates (y m d : Z) :
  (forall n,
      1 <= m <= 12 -> get_days_in_shamsi_month y m = Ok n -> 1 <= d <= n ->
      exists gy gm gd,
        shamsi_to_gregorian y m d = Ok (gy, gm, gd)
        /\ 1 <= gm <= 12
        /\ 1 <= gd <= days_in_gregorian_month gy gm)
  /\ (1 <= m <= 12 -> 1 <= d <= days_in_gregorian_month y m ->
      exists jy jm jd n,
        gregorian_to_shamsi y m d = Ok (jy, jm, jd)
        /\ 1 <= jm <= 12
        /\ get_days_in_shamsi_month jy jm = Ok n
        /\ 1 <= jd <= n)
  /\ days_in_gregorian_month y 2 = (if gregorian_leap y then 29 else 28)
  /\ (m <> 2 -> days_in_gregorian_month y m = nth (Z.to_nat m) g_days_in_month 0).
Proof.
  split; [|split; [|split]].
  - intros n Hm Hn Hd.
    destruct (shamsi_to_gregorian_valid y m d (valid_shamsi_intro _ _ _ _ Hn Hd))
      as (gy & gm & gd & He & Hv & _).
    apply valid_gregorian_iff in Hv. exists gy, gm, gd. tauto.
  - intros Hm Hd.
    destruct (gregorian_to_shamsi_valid y m d) as (jy & jm & jd & He & Hv & _).
    { apply valid_gregorian_iff. tauto. }
    apply valid_shamsi_elim in Hv as (n & Hn & Hjd & Hjm).
    exists jy, jm, jd, n. tauto.
  - unfold days_in_gregorian_month. destruct (gregorian_leap y); reflexivity.
  - intros H. unfold days_in_gregorian_month.
    destruct (Z.eqb_spec m 2); [contradiction | reflexivity].
Qed.

Lemma conversions_return_valid_dates_witness :
  (exists gy gm gd,
      shamsi_to_gregorian 1404 12 30 = Ok (gy, gm, gd)
      /\ 1 <= gm <= 12 /\ 1 <= gd <= days_in_gregorian_month gy gm)
  /\ (exists jy jm jd n,
         gregorian_to_shamsi 2024 2 29 = Ok (jy, jm, jd)
         /\ 1 <= jm <= 12
         /\ get_days_in_shamsi_month jy jm = Ok n /\ 1 <= jd <= n).
Proof.
  split.
  - apply (proj1 (conversions_return_valid_dates 1404 12 30) 30);
      [lia | reflexivity | lia].
  - apply (proj1 (proj2 (conversions_return_valid_dates 2024 2 29)));
      [lia | vm_compute; split; discriminate].
Defined.

(** C5: on every valid input both converters return normally: no exception
    is raised, so no table is indexed out of bounds, and the month counter
    of the walk ends at most at 12; the loops terminate on every input,
    valid or not. *)
Theorem conversions_total (y m d : Z) :
  (forall n,
      1 <= m <= 12 -> get_days_in_shamsi_month y m = Ok n -> 1 <= d <= n ->
      exists gy gm gd,
        shamsi_to_gregorian y m d = Ok (gy, gm, gd) /\ 1 <= gm <= 12)
  /\ (1 <= m <= 12 -> 1 <= d <= days_in_gregorian_month y m ->
      exists jy jm jd,
        gregorian_to_shamsi y m d = Ok (jy, jm, jd) /\ 1 <= jm <= 12)
  /\ shamsi_to_gregorian y m d <> NoFuel
  /\ gregorian_to_shamsi y m d <> NoFuel.
Proof.
  split; [|split; [|split]].
  - intros n Hm Hn Hd.
    destruct (shamsi_to_gregorian_valid y m d (valid_shamsi_intro _ _ _ _ Hn Hd))
      as (gy & gm & gd & He & Hv & _).
    apply valid_gregorian_iff in Hv. exists gy, gm, gd. tauto.
  - intros Hm Hd.
    destruct (gregorian_to_shamsi_valid y m d) as (jy & jm & jd & He & Hv & _).
    { apply valid_gregorian_iff. tauto. }
    apply valid_shamsi_elim in Hv as (n & Hn & Hjd & Hjm).
    exists jy, jm, jd. tauto.
  - apply shamsi_to_gregorian_terminates.
  - apply gregorian_to_shamsi_terminates.
Qed.

Lemma conversions_total_witness :
  (exists gy gm gd,
      shamsi_to_gregorian 1403 12 29 = Ok (gy, gm, gd) /\ 1 <= gm <= 12)
  /\ (exists jy jm jd,
         gregorian_to_shamsi 2025 12 31 = Ok (jy, jm, jd) /\ 1 <= jm <= 12).
Proof.
  split.
  - apply (proj1 (conversions_total 1403 12 29) 29);
      [lia | reflexivity | lia].
  - apply (proj1 (proj2 (conversions_total 2025 12 31)));
      [lia | vm_compute; split; discriminate].
Defined.

(** ** The claims on the display *)

Lemma month_name_no_esc month name :
  get_shamsi_month_name month = Ok name -> has_char ESC name = false.
Proof.
  intros H.
  destruct (Z_lt_dec month (-13)) as [Hl|Hl];
    [rewrite get_shamsi_month_name_out in H by lia; discriminate|].
  destruct (Z_lt_dec 12 month) as [Hh|Hh];
    [rewrite get_shamsi_month_name_out in H by lia; discriminate|].
  pose proof (Zrange_forallb
    (fun m => match get_shamsi_month_name m with
              | Ok s => negb (has_char ESC s)
              | _ => true
              end)
    (-13) 26 ltac:(vm_compute; reflexivity) month ltac:(lia)) as Hc.
  cbv beta in Hc. rewrite H in Hc. now apply negb_true_iff in Hc.
Qed.

Lemma header_month_no_marker month name year :
  get_shamsi_month_name month = Ok name ->
  contains marker (header_month name year) = false.
Proof.
  intros H. apply no_marker. unfold header_month.
  rewrite !has_char_app, (month_name_no_esc _ _ H), has_char_str.
  reflexivity.
Qed.

Lemma days_in_gregorian_month_le_31 gy gm :
  1 <= gm <= 12 -> days_in_gregorian_month gy gm <= 31.
Proof.
  intros Hm. unfold days_in_gregorian_month. destruct (_ && _); [lia|].
  apply Z.leb_le.
  apply (Zrange_forallb (fun m => nth (Z.to_nat m) g_days_in_month 0 <=? 31)
           1 12); [vm_compute; reflexivity | lia].
Qed.

(** [datetime.date] on a valid Gregorian date: the date itself for the years
    1 to 9999, [ValueError] for the other years that fit a C [int],
    [OverflowError] for the rest. *)
Lemma new_date_valid gy gm gd :
  valid_gregorian gy gm gd = true ->
  Datetime.new_date gy gm gd
  = if (1 <=? gy) && (gy <=? 9999) then Ok (Datetime.mkdate gy gm gd)
    else if Datetime.fits_int gy then Raise ValueError
    else Raise OverflowError.
Proof.
  intros H. apply valid_gregorian_iff in H as [Hm Hd].
  pose proof (days_in_gregorian_month_le_31 gy gm Hm) as H31.
  unfold Datetime.new_date, Datetime.fits_int, Datetime.INT_MIN,
    Datetime.INT_MAX, Datetime.MINYEAR, Datetime.MAXYEAR.
  destruct (Z.leb_spec (-2147483648) gm); [|lia].
  destruct (Z.leb_spec gm 2147483647); [|lia].
  destruct (Z.leb_spec (-2147483648) gd); [|lia].
  destruct (Z.leb_spec gd 2147483647); [|lia].
  destruct (Z.leb_spec 1 gm); [|lia]. destruct (Z.leb_spec gm 12); [|lia].
  destruct (Z.leb_spec 1 gd); [|lia].
  destruct (Z.leb_spec gd (days_in_gregorian_month gy gm)); [|lia].
  destruct (Z.leb_spec (-2147483648) gy), (Z.leb_spec gy 2147483647),
    (Z.leb_spec 1 gy), (Z.leb_spec gy 9999); cbn [andb negb];
    try reflexivity; lia.
Qed.

Lemma bind_Ok_inv {A B : Type} (m : Out.M A) (k : A -> Out.M B) out b :
  Out.bind m k = (out, Ok b) ->
  exists o1 a o2, m = (o1, Ok a) /\ k a = (o2, Ok b) /\ out = o1 ++ o2.
Proof.
  destruct m as [o1 [a|e|]]; cbn [Out.bind]; try discriminate.
  destruct (k a) as [o2 r] eqn:E. intros [= <- ->].
  exists o1, a, o2. auto.
Qed.

(** Highlighted chunks of the body of a month: those of the day loop. *)
Lemma month_body_spec lead n h :
  snd (month_body lead n h) = Ok tt
  /\ highlighted_cells (fst (month_body lead n h)) = expected_highlights 1 n h.
Proof.
  unfold month_body.
  destruct (day_loop_spec lead n h (Z.to_nat n) 1 ltac:(lia)) as [Hr Hc].
  rewrite bind_eq, Hr. rewrite bind_eq.
  destruct (negb _); cbn [Out.print Out.ret fst snd app String.append];
    (split; [reflexivity|]);
    rewrite highlighted_cells_app, Hc; cbn; lia.
Qed.

(** C10: in every month that is rendered, exactly one chunk carries the
    highlight marker when the day to highlight is a day of the month (1 to
    the month's day count), and none does when there is no day to highlight
    or it lies outside the month. *)
Theorem highlight_correctness (year month : Z) (h : option Z) (out : list string) :
  print_shamsi_calendar year month h = (out, Ok tt) ->
  exists n,
    get_days_in_shamsi_month year month = Ok n
    /\ (forall c, h = Some c -> 1 <= c <= n -> highlighted_cells out = 1%nat)
    /\ (forall c, h = Some c -> ~ 1 <= c <= n -> highlighted_cells out = 0%nat)
    /\ (h = None -> highlighted_cells out = 0%nat).
Proof.
  intros H. pose proof H as H0. unfold print_shamsi_calendar in H0.
  apply bind_Ok_inv in H0 as (o1 & name & o2 & Hn & H0 & _).
  apply bind_Ok_inv in H0 as (? & ? & ? & _ & H0 & _).
  apply bind_Ok_inv in H0 as (? & ? & ? & _ & H0 & _).
  apply bind_Ok_inv in H0 as (? & [[gy gm] gd] & ? & Hg & _ & _).
  unfold Out.lift in Hn, Hg. injection Hn as _ Hn. injection Hg as _ Hg.
  rewrite (print_shamsi_calendar_stages _ _ h _ _ _ _ Hn Hg) in H.
  destruct (Datetime.new_date gy gm gd) as [dt| |]; try discriminate.
  cbv zeta in H.
  destruct (get_days_in_shamsi_month year month) as [n| |]; try discriminate.
  injection H as <- Hs. exists n. split; [reflexivity|].
  destruct (month_body_spec ((Datetime.weekday dt + 2) mod 7) n h) as [_ Hc].
  assert (Hcount : highlighted_cells
            (header_month name year :: header_week
               :: mul "   " ((Datetime.weekday dt + 2) mod 7)
               :: fst (month_body ((Datetime.weekday dt + 2) mod 7) n h))
          = expected_highlights 1 n h).
  { rewrite !highlighted_cells_cons, Hc.
    rewrite (header_month_no_marker _ _ _ Hn).
    rewrite (no_marker (mul _ _)) by (now apply has_char_repeat).
    reflexivity. }
  rewrite Hcount. unfold expected_highlights.
  split; [|split].
  - intros c -> Hr. destruct (Z.leb_spec 1 c), (Z.leb_spec c n); try lia.
    reflexivity.
  - intros c -> Hr. destruct (Z.leb_spec 1 c), (Z.leb_spec c n); try lia;
      reflexivity.
  - intros ->. reflexivity.
Qed.

Lemma highlight_correctness_witness :
  exists n,
    get_days_in_shamsi_month 1403 1 = Ok n
    /\ (forall c, Some 5 = Some c -> 1 <= c <= n ->
        highlighted_cells (fst (print_shamsi_calendar 1403 1 (Some 5))) = 1%nat)
    /\ (forall c, Some 5 = Some c -> ~ 1 <= c <= n ->
        highlighted_cells (fst (print_shamsi_calendar 1403 1 (Some 5))) = 0%nat)
    /\ (Some 5 = None ->
        highlighted_cells (fst (print_shamsi_calendar 1403 1 (Some 5))) = 0%nat).
Proof.
  apply (highlight_correctness 1403 1 (Some 5)). vm_compute. reflexivity.
Defined.

(** ** Where the round trip does hold *)

Section RoundTrip.

Lemma Zrange_forallb2 (P : Z -> Z -> bool) lo1 n1 lo2 n2 :
  forallb (fun a => forallb (P a) (Zrange lo2 n2)) (Zrange lo1 n1) = true ->
  forall a b, lo1 <= a < lo1 + Z.of_nat n1 -> lo2 <= b < lo2 + Z.of_nat n2 ->
              P a b = true.
Proof.
  intros H a b Ha Hb.
  apply (Zrange_forallb (P a) lo2 n2); [|exact Hb].
  apply (Zrange_forallb (fun a => forallb (P a) (Zrange lo2 n2)) lo1 n1 H a Ha).
Qed.

Lemma j_inverse_check_leap y y' m d :
  is_shamsi_leap_year y = is_shamsi_leap_year y' ->
  j_inverse_check y m d = j_inverse_check y' m d.
Proof.
  intros H. unfold j_inverse_check.
  rewrite (j_month_walk_leap _ y y') by exact H.
  unfold valid_shamsi, get_days_in_shamsi_month, shamsi_day_of_year.
  now rewrite H.
Qed.

Lemma g_inverse_check_leap gy gy' gm gd :
  gregorian_leap gy = gregorian_leap gy' ->
  g_inverse_check gy gm gd = g_inverse_check gy' gm gd.
Proof.
  intros H. unfold g_inverse_check.
  rewrite (g_month_walk_leap _ gy gy') by exact H.
  unfold valid_gregorian, days_in_gregorian_month, gregorian_day_of_year.
  now rewrite H.
Qed.

Lemma valid_shamsi_day_le_31 y m d :
  valid_shamsi y m d = true -> 1 <= m <= 12 /\ 1 <= d <= 31.
Proof.
  intros H. apply valid_shamsi_elim in H as (n & Hn & Hd & Hm).
  split; [exact Hm|]. revert Hn. unfold get_days_in_shamsi_month.
  destruct (_ && _); [intros [= <-]; lia|].
  destruct (_ && _); [intros [= <-]; lia|].
  destruct (_ =? _); [|discriminate].
  destruct (is_shamsi_leap_year y); intros [= <-]; lia.
Qed.

Lemma valid_gregorian_day_le_31 gy gm gd :
  valid_gregorian gy gm gd = true -> 1 <= gm <= 12 /\ 1 <= gd <= 31.
Proof.
  intros H. apply valid_gregorian_iff in H as [Hm Hd].
  split; [exact Hm|].
  assert (Hmax : days_in_gregorian_month gy gm <= 31).
  { unfold days_in_gregorian_month. destruct (_ && _); [lia|].
    apply Z.leb_le.
    apply (Zrange_forallb (fun m => nth (Z.to_nat m) g_days_in_month 0 <=? 31)
             1 12); [vm_compute; reflexivity | lia]. }
  lia.
Qed.

Lemma j_month_walk_inverse y m d :
  valid_shamsi y m d = true ->
  j_month_walk walk_fuel y (shamsi_day_of_year y m d) 1 0 = Ok (m, d).
Proof.
  intros Hv. pose proof (valid_shamsi_day_le_31 _ _ _ Hv) as [Hm Hd].
  assert (Hc : j_inverse_check y m d = true).
  { destruct (is_shamsi_leap_year y) eqn:L.
    - rewrite (j_inverse_check_leap y 1404) by (rewrite L; reflexivity).
      apply (Zrange_forallb2 (j_inverse_check 1404) 1 12 1 31);
        [vm_compute; reflexivity | lia | lia].
    - rewrite (j_inverse_check_leap y 1403) by (rewrite L; reflexivity).
      apply (Zrange_forallb2 (j_inverse_check 1403) 1 12 1 31);
        [vm_compute; reflexivity | lia | lia]. }
  unfold j_inverse_check in Hc. rewrite Hv in Hc. cbn [implb] in Hc.
  destruct (j_month_walk _ _ _ _ _) as [[m' d']| |]; try discriminate.
  apply andb_true_iff in Hc as [H1 H2].
  apply Z.eqb_eq in H1, H2. now subst.
Qed.

Lemma g_month_walk_inverse gy gm gd :
  valid_gregorian gy gm gd = true ->
  g_month_walk walk_fuel gy (gregorian_day_of_year gy gm gd) 1 0 = Ok (gm, gd).
Proof.
  intros Hv. pose proof (valid_gregorian_day_le_31 _ _ _ Hv) as [Hm Hd].
  assert (Hc : g_inverse_check gy gm gd = true).
  { destruct (gregorian_leap gy) eqn:L.
    - rewrite (g_inverse_check_leap gy 2024) by (rewrite L; reflexivity).
      apply (Zrange_forallb2 (g_inverse_check 2024) 1 12 1 31);
        [vm_compute; reflexivity | lia | lia].
    - rewrite (g_inverse_check_leap gy 2023) by (rewrite L; reflexivity).
      apply (Zrange_forallb2 (g_inverse_check 2023) 1 12 1 31);
        [vm_compute; reflexivity | lia | lia]. }
  unfold g_inverse_check in Hc. rewrite Hv in Hc. cbn [implb] in Hc.
  destruct (g_month_walk _ _ _ _ _) as [[m' d']| |]; try discriminate.
  apply andb_true_iff in Hc as [H1 H2].
  apply Z.eqb_eq in H1, H2. now subst.
Qed.

(** A valid Shamsi date that [shamsi_to_gregorian] places in the Gregorian
    year [y + 621] (from the new year to 31 December) is recovered by
    [gregorian_to_shamsi]. *)
Lemma round_trip_shamsi_same_year y m d :
  valid_shamsi y m d = true ->
  new_year_offset y + shamsi_day_of_year y m d
    <= gregorian_year_length (y + 621) ->
  exists gy gm gd,
    shamsi_to_gregorian y m d = Ok (gy, gm, gd)
    /\ gregorian_to_shamsi gy gm gd = Ok (y, m, d).
Proof.
  intros Hv Hle.
  destruct (shamsi_to_gregorian_valid _ _ _ Hv)
    as (gy & gm & gd & He & Hvg & [(_ & -> & Hdoy)|(Hlt & _)]);
    [|cbv zeta in Hlt; lia].
  exists (y + 621), gm, gd. split; [exact He|].
  rewrite gregorian_to_shamsi_eq. cbv zeta. rewrite Hdoy.
  pose proof (shamsi_day_of_year_bounds _ _ _ Hv) as Hd.
  pose proof (new_year_offset_bounds y) as Ho.
  destruct (Z.ltb_spec (new_year_offset y + shamsi_day_of_year y m d) 80);
    [lia|].
  replace (y + 621 - 621) with y by lia.
  destruct (Z.ltb_spec (new_year_offset y + shamsi_day_of_year y m d
                        - new_year_offset y) 1); [lia|].
  replace (new_year_offset y + shamsi_day_of_year y m d - new_year_offset y)
    with (shamsi_day_of_year y m d) by lia.
  now rewrite (j_month_walk_inverse _ _ _ Hv).
Qed.

(** A valid Gregorian date after the day of the Shamsi new year is
    recovered by [shamsi_to_gregorian]. *)
Lemma round_trip_gregorian_after_new_year gy gm gd :
  valid_gregorian gy gm gd = true ->
  new_year_offset (gy - 621) < gregorian_day_of_year gy gm gd ->
  exists jy jm jd,
    gregorian_to_shamsi gy gm gd = Ok (jy, jm, jd)
    /\ shamsi_to_gregorian jy jm jd = Ok (gy, gm, gd).
Proof.
  intros Hv Hlt.
  pose proof (gregorian_day_of_year_bounds _ _ _ Hv) as Hd.
  pose proof (new_year_offset_bounds (gy - 621)) as Ho.
  pose proof (year_length_bounds gy (gy - 621)) as [Hg Hj].
  set (dpg := gregorian_day_of_year gy gm gd) in *.
  assert (Hs : 1 <= dpg - new_year_offset (gy - 621)
               <= shamsi_year_length (gy - 621)) by lia.
  pose proof (j_month_walk_spec _ _ Hs) as W. unfold j_walk_check in W.
  destruct (j_month_walk walk_fuel (gy - 621)
              (dpg - new_year_offset (gy - 621)) 1 0)
    as [[jm jd]| |] eqn:E; try discriminate.
  apply andb_true_iff in W as [W1 W2]. apply Z.eqb_eq in W2.
  exists (gy - 621), jm, jd. split.
  - rewrite gregorian_to_shamsi_eq. cbv zeta. fold dpg.
    destruct (Z.ltb_spec dpg 80); [lia|].
    destruct (Z.ltb_spec (dpg - new_year_offset (gy - 621)) 1); [lia|].
    now rewrite E.
  - rewrite shamsi_to_gregorian_eq. cbv zeta. rewrite W2.
    replace (gy - 621 + 621) with gy by lia.
    replace (new_year_offset (gy - 621) + (dpg - new_year_offset (gy - 621)))
      with dpg by lia.
    destruct (Z.ltb_spec (gregorian_year_length gy) dpg); [lia|].
    unfold dpg. now rewrite (g_month_walk_inverse _ _ _ Hv).
Qed.

End RoundTrip.

(** ** The converters at given dates *)

(** C4: the three anchor dates: 1 Farvardin 1403 is converted to 20 March
    2024 and back, and 11 February 1979 is converted to 22 Bahman 1357. *)
Theorem known_fixed_points :
  shamsi_to_gregorian 1403 1 1 = Ok (2024, 3, 20)
  /\ gregorian_to_shamsi 2024 3 20 = Ok (1403, 1, 1)
  /\ gregorian_to_shamsi 1979 2 11 = Ok (1357, 11, 22).
Proof. repeat split; vm_compute; reflexivity. Qed.

(** C1 at 1 Bahman 1403, a valid Shamsi date: it is sent to 20 January 2025,
    which is sent back to 30 Dey 1403; and 20 January 2025, a valid Gregorian
    date, is sent to 30 Dey 1403, which is sent to 19 January 2025.  The
    same happens at the turn of the year: 30 Esfand 1404 is sent to 21 March
    2026, which is sent to 29 Esfand 1405; and the last day of 1405 and the
    first day of 1406 are both sent to 21 March 2027. *)
Theorem round_trip_fails :
  valid_shamsi 1403 11 1 = true
  /\ shamsi_to_gregorian 1403 11 1 = Ok (2025, 1, 20)
  /\ valid_gregorian 2025 1 20 = true
  /\ gregorian_to_shamsi 2025 1 20 = Ok (1403, 10, 30)
  /\ shamsi_to_gregorian 1403 10 30 = Ok (2025, 1, 19)
  /\ valid_shamsi 1404 12 30 = true
  /\ shamsi_to_gregorian 1404 12 30 = Ok (2026, 3, 21)
  /\ gregorian_to_shamsi 2026 3 21 = Ok (1405, 12, 29)
  /\ valid_shamsi 1405 12 29 = true
  /\ shamsi_to_gregorian 1405 12 29 = Ok (2027, 3, 21)
  /\ shamsi_to_gregorian 1406 1 1 = Ok (2027, 3, 21).
Proof. repeat split; vm_compute; reflexivity. Qed.

(** * Further properties of the code *)

(** ** The month walks outside the days of the year *)

Section WalkInvariant.

Lemma g_step_check_leap gy gy' gm :
  gregorian_leap gy = gregorian_leap gy' ->
  g_step_check gy gm = g_step_check gy' gm.
Proof.
  intros H.
  unfold g_step_check, gregorian_day_of_year, days_in_gregorian_month,
    gregorian_year_length.
  now rewrite H.
Qed.

Lemma j_step_check_leap jy jy' jm :
  is_shamsi_leap_year jy = is_shamsi_leap_year jy' ->
  j_step_check jy jm = j_step_check jy' jm.
Proof.
  intros H.
  unfold j_step_check, shamsi_day_of_year, get_days_in_shamsi_month,
    shamsi_year_length.
  now rewrite H.
Qed.

Lemma g_step_check_true gy gm : 1 <= gm <= 12 -> g_step_check gy gm = true.
Proof.
  intros Hm. destruct (gregorian_leap gy) eqn:L.
  - rewrite (g_step_check_leap gy 2024) by (rewrite L; reflexivity).
    apply (Zrange_forallb (g_step_check 2024) 1 12);
      [vm_compute; reflexivity | lia].
  - rewrite (g_step_check_leap gy 2023) by (rewrite L; reflexivity).
    apply (Zrange_forallb (g_step_check 2023) 1 12);
      [vm_compute; reflexivity | lia].
Qed.

Lemma j_step_check_true jy jm : 1 <= jm <= 12 -> j_step_check jy jm = true.
Proof.
  intros Hm. destruct (is_shamsi_leap_year jy) eqn:L.
  - rewrite (j_step_check_leap jy 1404) by (rewrite L; reflexivity).
    apply (Zrange_forallb (j_step_check 1404) 1 12);
      [vm_compute; reflexivity | lia].
  - rewrite (j_step_check_leap jy 1403) by (rewrite L; reflexivity).
    apply (Zrange_forallb (j_step_check 1403) 1 12);
      [vm_compute; reflexivity | lia].
Qed.

Lemma g_step gy gm :
  1 <= gm <= 12 ->
  exists d0,
    index g_days_in_month gm = Ok d0
    /\ gregorian_day_of_year gy (gm + 1) 0
       = gregorian_day_of_year gy gm 0
         + (if (gm =? 2) && gregorian_leap gy then 29 else d0)
    /\ days_in_gregorian_month gy gm
       = (if (gm =? 2) && gregorian_leap gy then 29 else d0)
    /\ gregorian_day_of_year gy (gm + 1) 0 <= gregorian_year_length gy.
Proof.
  intros Hm. pose proof (g_step_check_true gy gm Hm) as H.
  unfold g_step_check in H.
  destruct (index g_days_in_month gm) as [d0| |]; try discriminate.
  exists d0. split; [reflexivity|]. lia.
Qed.

Lemma j_step jy jm :
  1 <= jm <= 12 ->
  exists d0,
    index j_days_in_month jm = Ok d0
    /\ shamsi_day_of_year jy (jm + 1) 0
       = shamsi_day_of_year jy jm 0
         + (if (jm =? 12) && is_shamsi_leap_year jy then 30 else d0)
    /\ get_days_in_shamsi_month jy jm
       = Ok (if (jm =? 12) && is_shamsi_leap_year jy then 30 else d0)
    /\ shamsi_day_of_year jy (jm + 1) 0 <= shamsi_year_length jy.
Proof.
  intros Hm. pose proof (j_step_check_true jy jm Hm) as H.
  unfold j_step_check in H.
  destruct (index j_days_in_month jm) as [d0| |]; try discriminate.
  apply andb_true_iff in H as [H H3]. apply andb_true_iff in H as [H1 H2].
  destruct (get_days_in_shamsi_month jy jm) as [n| |]; try discriminate.
  exists d0. split; [reflexivity|].
  assert (Hn : n = (if (jm =? 12) && is_shamsi_leap_year jy then 30 else d0))
    by lia.
  rewrite Hn. split; [lia|]. split; [reflexivity | lia].
Qed.

Lemma gregorian_day_of_year_13 gy :
  gregorian_day_of_year gy 13 0 = gregorian_year_length gy.
Proof.
  unfold gregorian_day_of_year, gregorian_year_length.
  destruct (gregorian_leap gy); reflexivity.
Qed.

Lemma shamsi_day_of_year_13 jy :
  shamsi_day_of_year jy 13 0 = shamsi_year_length jy.
Proof.
  unfold shamsi_day_of_year, shamsi_year_length.
  destruct (is_shamsi_leap_year jy); reflexivity.
Qed.

(** Past the last day of the year the walk runs through the twelve months
    and indexes the table at 13. *)
Lemma g_month_walk_overflow gy fuel : forall gm total gd,
  1 <= gm <= 13 -> 13 - gm < Z.of_nat (S fuel) ->
  0 < total ->
  gregorian_year_length gy - gregorian_day_of_year gy gm 0 < total ->
  g_month_walk (S fuel) gy total gm gd = Raise IndexError.
Proof.
  induction fuel as [|fuel IH]; intros gm total gd Hm Hf Hp Ht;
    rewrite g_month_walk_S; (destruct (Z.ltb_spec 0 total); [|lia]).
  - rewrite index_g_days_high by lia. reflexivity.
  - destruct (Z.eq_dec gm 13) as [->|Hne];
      [rewrite index_g_days_high by lia; reflexivity|].
    destruct (g_step gy gm ltac:(lia)) as (d0 & Hi & Hs & _ & Hle).
    rewrite Hi. cbn [Py.bind]. cbv zeta.
    destruct (Z.leb_spec total
                (if (gm =? 2) && gregorian_leap gy then 29 else d0)); [lia|].
    apply IH; lia.
Qed.

Lemma j_month_walk_overflow jy fuel : forall jm total jd,
  1 <= jm <= 13 -> 13 - jm < Z.of_nat (S fuel) ->
  0 < total ->
  shamsi_year_length jy - shamsi_day_of_year jy jm 0 < total ->
  j_month_walk (S fuel) jy total jm jd = Raise IndexError.
Proof.
  induction fuel as [|fuel IH]; intros jm total jd Hm Hf Hp Ht;
    rewrite j_month_walk_S; (destruct (Z.ltb_spec 0 total); [|lia]).
  - rewrite index_j_days_high by lia. reflexivity.
  - destruct (Z.eq_dec jm 13) as [->|Hne];
      [rewrite index_j_days_high by lia; reflexivity|].
    destruct (j_step jy jm ltac:(lia)) as (d0 & Hi & Hs & _ & Hle).
    rewrite Hi. cbn [Py.bind]. cbv zeta.
    destruct (Z.leb_spec total
                (if (jm =? 12) && is_shamsi_leap_year jy then 30 else d0)); [lia|].
    apply IH; lia.
Qed.

Lemma g_month_walk_nonpositive gy fuel total gm gd :
  total <= 0 -> g_month_walk fuel gy total gm gd = Ok (gm, gd).
Proof.
  intros H. destruct fuel; cbn [g_month_walk];
    (destruct (Z.ltb_spec 0 total); [lia | reflexivity]).
Qed.

Lemma j_month_walk_nonpositive jy fuel total jm jd :
  total <= 0 -> j_month_walk fuel jy total jm jd = Ok (jm, jd).
Proof.
  intros H. destruct fuel; cbn [j_month_walk];
    (destruct (Z.ltb_spec 0 total); [lia | reflexivity]).
Qed.

End WalkInvariant.

(** ** The converters on every input *)

Section ConverterOutcome.

Lemma gregorian_day_of_year_1 gy : gregorian_day_of_year gy 1 0 = 0.
Proof. reflexivity. Qed.

Lemma shamsi_day_of_year_1 jy : shamsi_day_of_year jy 1 0 = 0.
Proof. unfold shamsi_day_of_year. destruct (is_shamsi_leap_year jy); reflexivity. Qed.

(** X3: [shamsi_to_gregorian] on any three integers, by the day count
    [total_days_gregorian] it computes: a count of at most 0 gives day 0 of
    month 1 of the year [y + 621] without any error; a count within the
    Gregorian year [y + 621] gives the valid date of that year with this day
    of the year; a count within the year after gives the valid date of
    [y + 622]; a larger count makes the month walk index its table at 13 and
    raise [IndexError]. *)
Theorem shamsi_to_gregorian_outcome (y m d : Z) :
  let total := new_year_offset y + shamsi_day_of_year y m d in
  let len := gregorian_year_length (y + 621) in
  let len' := gregorian_year_length (y + 622) in
  (total <= 0 -> shamsi_to_gregorian y m d = Ok (y + 621, 1, 0))
  /\ (1 <= total <= len ->
      exists gm gd,
        shamsi_to_gregorian y m d = Ok (y + 621, gm, gd)
        /\ valid_gregorian (y + 621) gm gd = true
        /\ gregorian_day_of_year (y + 621) gm gd = total)
  /\ (len < total <= len + len' ->
      exists gm gd,
        shamsi_to_gregorian y m d = Ok (y + 622, gm, gd)
        /\ valid_gregorian (y + 622) gm gd = true
        /\ gregorian_day_of_year (y + 622) gm gd = total - len)
  /\ (len + len' < total -> shamsi_to_gregorian y m d = Raise IndexError).
Proof.
  cbv zeta. rewrite shamsi_to_gregorian_eq. cbv zeta.
  replace (y + 621 + 1) with (y + 622) by lia.
  set (total := new_year_offset y + shamsi_day_of_year y m d).
  pose proof (year_length_bounds (y + 621) 0) as [Hl _].
  pose proof (year_length_bounds (y + 622) 0) as [Hl' _].
  split; [|split; [|split]]; intros H.
  - destruct (Z.ltb_spec (gregorian_year_length (y + 621)) total); [lia|].
    now rewrite g_month_walk_nonpositive by lia.
  - destruct (Z.ltb_spec (gregorian_year_length (y + 621)) total); [lia|].
    pose proof (g_month_walk_spec (y + 621) total H) as W.
    unfold g_walk_check in W.
    destruct (g_month_walk _ _ _ _ _) as [[gm gd]| |]; try discriminate.
    apply andb_true_iff in W as [W1 W2]. apply Z.eqb_eq in W2.
    exists gm, gd. cbn [Py.bind]. auto.
  - destruct (Z.ltb_spec (gregorian_year_length (y + 621)) total); [|lia].
    pose proof (g_month_walk_spec (y + 622)
                  (total - gregorian_year_length (y + 621)) ltac:(lia)) as W.
    unfold g_walk_check in W.
    destruct (g_month_walk _ _ _ _ _) as [[gm gd]| |]; try discriminate.
    apply andb_true_iff in W as [W1 W2]. apply Z.eqb_eq in W2.
    exists gm, gd. cbn [Py.bind]. auto.
  - destruct (Z.ltb_spec (gregorian_year_length (y + 621)) total); [|lia].
    change walk_fuel with (S 12).
    rewrite g_month_walk_overflow;
      [reflexivity | lia | lia | lia | rewrite gregorian_day_of_year_1; lia].
Qed.

(** X4: [gregorian_to_shamsi] on any three integers, by the Shamsi day count
    [days_passed_shamsi] it reaches after its year adjustments: at most 0
    gives day 0 of month 1; a count within the Shamsi year gives the valid
    date with this day of the year; a larger count raises [IndexError]. *)
Theorem gregorian_to_shamsi_outcome (gy gm gd : Z) :
  let dpg := gregorian_day_of_year gy gm gd in
  let jy := if dpg <? 80 then gy - 622 else gy - 621 in
  let dps0 := dpg - new_year_offset jy in
  let dps := if dps0 <? 1 then dps0 + shamsi_year_length jy else dps0 in
  (dps <= 0 -> gregorian_to_shamsi gy gm gd = Ok (jy, 1, 0))
  /\ (1 <= dps <= shamsi_year_length jy ->
      exists jm jd,
        gregorian_to_shamsi gy gm gd = Ok (jy, jm, jd)
        /\ valid_shamsi jy jm jd = true
        /\ shamsi_day_of_year jy jm jd = dps)
  /\ (shamsi_year_length jy < dps ->
      gregorian_to_shamsi gy gm gd = Raise IndexError).
Proof.
  cbv zeta. rewrite gregorian_to_shamsi_eq. cbv zeta.
  replace (gy - 621 - 1) with (gy - 622) by lia.
  set (dpg := gregorian_day_of_year gy gm gd).
  set (jy := if dpg <? 80 then gy - 622 else gy - 621).
  set (dps := if dpg - new_year_offset jy <? 1
              then dpg - new_year_offset jy + shamsi_year_length jy
              else dpg - new_year_offset jy).
  pose proof (year_length_bounds 0 jy) as [_ Hl].
  split; [|split]; intros H.
  - now rewrite j_month_walk_nonpositive by lia.
  - pose proof (j_month_walk_spec jy dps H) as W.
    unfold j_walk_check in W.
    destruct (j_month_walk _ _ _ _ _) as [[jm jd]| |]; try discriminate.
    apply andb_true_iff in W as [W1 W2]. apply Z.eqb_eq in W2.
    exists jm, jd. cbn [Py.bind]. auto.
  - change walk_fuel with (S 12).
    rewrite j_month_walk_overflow;
      [reflexivity | lia | lia | lia | rewrite shamsi_day_of_year_1; lia].
Qed.

End ConverterOutcome.

(** ** What the basic validation of the command line lets through *)

Section BasicValidation.

Lemma j_prefix_max y m :
  1 <= m <= 12 -> 0 <= shamsi_day_of_year y m 0 <= 336.
Proof.
  intros Hm.
  assert (H : j_prefix_max_check y m = true).
  { destruct (is_shamsi_leap_year y) eqn:L.
    - replace (j_prefix_max_check y m) with (j_prefix_max_check 1404 m)
        by (unfold j_prefix_max_check, shamsi_day_of_year; now rewrite L).
      apply (Zrange_forallb (j_prefix_max_check 1404) 1 12);
        [vm_compute; reflexivity | lia].
    - replace (j_prefix_max_check y m) with (j_prefix_max_check 1403 m)
        by (unfold j_prefix_max_check, shamsi_day_of_year; now rewrite L).
      apply (Zrange_forallb (j_prefix_max_check 1403) 1 12);
        [vm_compute; reflexivity | lia]. }
  unfold j_prefix_max_check in H. lia.
Qed.

Lemma g_prefix_max gy gm :
  1 <= gm <= 12 ->
  0 <= gregorian_day_of_year gy gm 0
  /\ gregorian_day_of_year gy gm 0 + 31 <= gregorian_year_length gy.
Proof.
  intros Hm.
  assert (H : g_prefix_max_check gy gm = true).
  { destruct (gregorian_leap gy) eqn:L.
    - replace (g_prefix_max_check gy gm) with (g_prefix_max_check 2024 gm)
        by (unfold g_prefix_max_check, gregorian_day_of_year,
              gregorian_year_length; now rewrite L).
      apply (Zrange_forallb (g_prefix_max_check 2024) 1 12);
        [vm_compute; reflexivity | lia].
    - replace (g_prefix_max_check gy gm) with (g_prefix_max_check 2023 gm)
        by (unfold g_prefix_max_check, gregorian_day_of_year,
              gregorian_year_length; now rewrite L).
      apply (Zrange_forallb (g_prefix_max_check 2023) 1 12);
        [vm_compute; reflexivity | lia]. }
  unfold g_prefix_max_check in H. lia.
Qed.

(** X5: The command line accepts a date when its month is 1 to 12 and its day 1
    to 31, whatever the month.  On every such date both converters return
    normally, and what they return is a valid date: a day past the end of
    its month is not refused. *)
Theorem basic_validation_suffices (y m d : Z) :
  1 <= m <= 12 -> 1 <= d <= 31 ->
  (exists gy gm gd,
      shamsi_to_gregorian y m d = Ok (gy, gm, gd)
      /\ valid_gregorian gy gm gd = true)
  /\ (exists jy jm jd,
         gregorian_to_shamsi y m d = Ok (jy, jm, jd)
         /\ valid_shamsi jy jm jd = true).
Proof.
  intros Hm Hd. split.
  - rewrite shamsi_to_gregorian_eq. cbv zeta.
    rewrite shamsi_day_of_year_add.
    pose proof (j_prefix_max y m Hm) as Hp.
    pose proof (new_year_offset_bounds y) as [Ho _].
    pose proof (year_length_bounds (y + 621) 0) as [Hl _].
    pose proof (year_length_bounds (y + 621 + 1) 0) as [Hl' _].
    set (total := new_year_offset y + (shamsi_day_of_year y m 0 + d)) in *.
    destruct (Z.ltb_spec (gregorian_year_length (y + 621)) total).
    + pose proof (g_month_walk_spec (y + 621 + 1)
                    (total - gregorian_year_length (y + 621)) ltac:(lia)) as W.
      unfold g_walk_check in W.
      destruct (g_month_walk _ _ _ _ _) as [[gm gd]| |]; try discriminate.
      apply andb_true_iff in W as [W1 _].
      exists (y + 621 + 1), gm, gd. cbn [Py.bind]. auto.
    + pose proof (g_month_walk_spec (y + 621) total ltac:(lia)) as W.
      unfold g_walk_check in W.
      destruct (g_month_walk _ _ _ _ _) as [[gm gd]| |]; try discriminate.
      apply andb_true_iff in W as [W1 _].
      exists (y + 621), gm, gd. cbn [Py.bind]. auto.
  - rewrite gregorian_to_shamsi_eq. cbv zeta.
    rewrite gregorian_day_of_year_add.
    pose proof (g_prefix_max y m Hm) as Hp.
    pose proof (year_length_bounds y 0) as [Hl _].
    set (dpg := gregorian_day_of_year y m 0 + d) in *.
    set (jy := if dpg <? 80 then y - 621 - 1 else y - 621).
    pose proof (new_year_offset_bounds jy) as Ho.
    pose proof (year_length_bounds 0 jy) as [_ Hj].
    assert (Hs : 1 <= (if dpg - new_year_offset jy <? 1
                       then dpg - new_year_offset jy + shamsi_year_length jy
                       else dpg - new_year_offset jy)
                 <= shamsi_year_length jy).
    { destruct (Z.ltb_spec (dpg - new_year_offset jy) 1); lia. }
    pose proof (j_month_walk_spec jy _ Hs) as W.
    unfold j_walk_check in W.
    destruct (j_month_walk _ _ _ _ _) as [[jm jd]| |]; try discriminate.
    apply andb_true_iff in W as [W1 _].
    exists jy, jm, jd. cbn [Py.bind]. auto.
Qed.

Lemma basic_validation_suffices_witness :
  (exists gy gm gd,
      shamsi_to_gregorian 1403 12 31 = Ok (gy, gm, gd)
      /\ valid_gregorian gy gm gd = true)
  /\ (exists jy jm jd,
         gregorian_to_shamsi 1403 12 31 = Ok (jy, jm, jd)
         /\ valid_shamsi jy jm jd = true).
Proof. apply (basic_validation_suffices 1403 12 31); lia. Defined.

(** X6: A day past the end of a month is the same as the day of the next month
    that many days on: for months 1 to 11, [shamsi_to_gregorian] on day
    [n + k] of month [m], [n] being the length of the month, is
    [shamsi_to_gregorian] on day [k] of month [m + 1], and likewise
    [gregorian_to_shamsi] with the Gregorian month lengths. *)
Theorem day_overflow_rolls_over (y m k : Z) :
  1 <= m <= 11 ->
  (forall n, get_days_in_shamsi_month y m = Ok n ->
             shamsi_to_gregorian y m (n + k) = shamsi_to_gregorian y (m + 1) k)
  /\ gregorian_to_shamsi y m (days_in_gregorian_month y m + k)
     = gregorian_to_shamsi y (m + 1) k.
Proof.
  intros Hm. split.
  - intros n Hn.
    destruct (j_step y m ltac:(lia)) as (d0 & _ & Hs & Hg & _).
    rewrite Hg in Hn. injection Hn as <-.
    rewrite !shamsi_to_gregorian_eq.
    rewrite (shamsi_day_of_year_add y m), (shamsi_day_of_year_add y (m + 1)), Hs.
    now rewrite !Z.add_assoc.
  - destruct (g_step y m ltac:(lia)) as (d0 & _ & Hs & Hg & _).
    rewrite !gregorian_to_shamsi_eq.
    rewrite (gregorian_day_of_year_add y m),
      (gregorian_day_of_year_add y (m + 1)), Hs, Hg.
    now rewrite !Z.add_assoc.
Qed.

Lemma day_overflow_rolls_over_witness :
  (forall n, get_days_in_shamsi_month 1403 7 = Ok n ->
             shamsi_to_gregorian 1403 7 (n + 1) = shamsi_to_gregorian 1403 (7 + 1) 1)
  /\ gregorian_to_shamsi 2023 2 (days_in_gregorian_month 2023 2 + 3)
     = gregorian_to_shamsi 2023 (2 + 1) 3.
Proof.
  split.
  - apply (proj1 (day_overflow_rolls_over 1403 7 1 ltac:(lia))).
  - apply (proj2 (day_overflow_rolls_over 2023 2 3 ltac:(lia))).
Defined.

End BasicValidation.

(** ** The new year, the month lengths and the leap years *)

Section NewYear.

(** X7: The first day of every Shamsi year [y] is sent to 20, 21 or 22 March of
    the Gregorian year [y + 621]: to 21 March, one day later when the year
    before was a Shamsi leap year, one day earlier when [y + 621] is a
    Gregorian leap year. *)
Theorem shamsi_new_year_in_march (y : Z) :
  shamsi_to_gregorian y 1 1
  = Ok (y + 621, 3,
        21 + (if is_shamsi_leap_year (y - 1) then 1 else 0)
           - (if gregorian_leap (y + 621) then 1 else 0)).
Proof.
  rewrite shamsi_to_gregorian_eq. cbv zeta.
  rewrite shamsi_day_of_year_add, shamsi_day_of_year_1.
  pose proof (year_length_bounds (y + 621) 0) as [Hl _].
  set (gd := 21 + (if is_shamsi_leap_year (y - 1) then 1 else 0)
                - (if gregorian_leap (y + 621) then 1 else 0)).
  assert (Hv : valid_gregorian (y + 621) 3 gd = true).
  { unfold valid_gregorian, days_in_gregorian_month, gd.
    destruct (is_shamsi_leap_year (y - 1)), (gregorian_leap (y + 621));
      reflexivity. }
  assert (Hd : gregorian_day_of_year (y + 621) 3 gd = new_year_offset y + (0 + 1)).
  { unfold gregorian_day_of_year, new_year_offset, gd.
    destruct (is_shamsi_leap_year (y - 1)), (gregorian_leap (y + 621));
      reflexivity. }
  pose proof (new_year_offset_bounds y) as [Ho _].
  destruct (Z.ltb_spec (gregorian_year_length (y + 621))
              (new_year_offset y + (0 + 1))); [lia|].
  rewrite <- Hd, (g_month_walk_inverse _ _ _ Hv). reflexivity.
Qed.

(** X8: The three places that hold the Shamsi month lengths agree: for months 1
    to 12, [get_days_in_shamsi_month], the table of [shamsi_to_gregorian]
    with its entry 12 set to 30 in a leap year, and the length the month walk
    of [gregorian_to_shamsi] takes from its own table give the same number,
    which lies between 29 and 31. *)
Theorem shamsi_month_lengths_agree (y m : Z) :
  1 <= m <= 12 ->
  exists n,
    get_days_in_shamsi_month y m = Ok n
    /\ index (if is_shamsi_leap_year y
              then <[12%nat := 30]> j_days_in_month else j_days_in_month) m
       = Ok n
    /\ (exists d0,
           index j_days_in_month m = Ok d0
           /\ n = (if (m =? 12) && is_shamsi_leap_year y then 30 else d0))
    /\ 29 <= n <= 31.
Proof.
  intros Hm.
  assert (Hc : m = 1 \/ m = 2 \/ m = 3 \/ m = 4 \/ m = 5 \/ m = 6 \/ m = 7
               \/ m = 8 \/ m = 9 \/ m = 10 \/ m = 11 \/ m = 12) by lia.
  unfold get_days_in_shamsi_month.
  repeat (destruct Hc as [-> | Hc];
          [destruct (is_shamsi_leap_year y); eexists;
           (split; [reflexivity|]); (split; [reflexivity|]);
           (split; [eexists; split; reflexivity | lia])|]).
  subst m. destruct (is_shamsi_leap_year y); eexists;
    (split; [reflexivity|]); (split; [reflexivity|]);
    (split; [eexists; split; reflexivity | lia]).
Qed.

Lemma shamsi_month_lengths_agree_witness :
  exists n,
    get_days_in_shamsi_month 1404 12 = Ok n
    /\ index (if is_shamsi_leap_year 1404
              then <[12%nat := 30]> j_days_in_month else j_days_in_month) 12
       = Ok n
    /\ (exists d0,
           index j_days_in_month 12 = Ok d0
           /\ n = (if (12 =? 12) && is_shamsi_leap_year 1404 then 30 else d0))
    /\ 29 <= n <= 31.
Proof. apply (shamsi_month_lengths_agree 1404 12). lia. Defined.

Lemma residue_add y k :
  (y + k + 2346) mod 33 = ((y + 2346) mod 33 + k) mod 33.
Proof. rewrite Zplus_mod_idemp_l. f_equal. lia. Qed.

(** X9: Shamsi leap years are four or five years apart: the three years after a
    leap year are common years, and exactly one of the fourth and the fifth
    year after it is a leap year. *)
Theorem leap_year_spacing (y : Z) :
  is_shamsi_leap_year y = true ->
  is_shamsi_leap_year (y + 1) = false
  /\ is_shamsi_leap_year (y + 2) = false
  /\ is_shamsi_leap_year (y + 3) = false
  /\ xorb (is_shamsi_leap_year (y + 4)) (is_shamsi_leap_year (y + 5)) = true.
Proof.
  rewrite !is_shamsi_leap_year_residue, !residue_add.
  pose proof (Z.mod_pos_bound (y + 2346) 33 ltac:(lia)) as Hr.
  revert Hr. generalize ((y + 2346) mod 33). intros r Hr H.
  pose proof (Zrange_forallb leap_spacing_check 0 33
                ltac:(vm_compute; reflexivity) r ltac:(lia)) as Hc.
  unfold leap_spacing_check in Hc. rewrite H in Hc. cbn [implb] in Hc.
  apply andb_true_iff in Hc as [Hc H4]. apply andb_true_iff in Hc as [Hc H3].
  apply andb_true_iff in Hc as [H1 H2].
  apply negb_true_iff in H1, H2, H3. auto.
Qed.

Lemma leap_year_spacing_witness :
  is_shamsi_leap_year (1404 + 1) = false
  /\ is_shamsi_leap_year (1404 + 2) = false
  /\ is_shamsi_leap_year (1404 + 3) = false
  /\ xorb (is_shamsi_leap_year (1404 + 4)) (is_shamsi_leap_year (1404 + 5)) = true.
Proof. apply (leap_year_spacing 1404). reflexivity. Defined.

End NewYear.

(** ** Exactly when the round trips hold *)

Section RoundTripExact.

(** X1: A valid Shamsi date comes back from [gregorian_to_shamsi] after
    [shamsi_to_gregorian] exactly in two cases: the date falls in the
    Gregorian year [y + 621] (new year to 31 December); or it falls in the
    next Gregorian year before its day 80 and the Shamsi year [y] is as long
    as the Gregorian year [y + 621]. *)
Theorem round_trip_shamsi_iff (y m d : Z) :
  valid_shamsi y m d = true ->
  let total := new_year_offset y + shamsi_day_of_year y m d in
  let len := gregorian_year_length (y + 621) in
  (exists gy gm gd,
      shamsi_to_gregorian y m d = Ok (gy, gm, gd)
      /\ gregorian_to_shamsi gy gm gd = Ok (y, m, d))
  <-> (total <= len \/ (total - len < 80 /\ shamsi_year_length y = len)).
Proof.
  intros Hv. cbv zeta.
  pose proof (shamsi_day_of_year_bounds _ _ _ Hv) as Hd.
  pose proof (new_year_offset_bounds y) as Ho.
  pose proof (year_length_bounds (y + 621) y) as [Hl Hj].
  destruct (shamsi_to_gregorian_valid _ _ _ Hv)
    as (gy & gm & gd & He & Hvg & Hc). cbv zeta in Hc.
  set (total := new_year_offset y + shamsi_day_of_year y m d) in *.
  assert (Hg : gregorian_year_length (y + 621) < total ->
               gregorian_to_shamsi gy gm gd
               = (let dpg := total - gregorian_year_length (y + 621) in
                  let jy := if dpg <? 80 then y else y + 1 in
                  let dps := dpg - new_year_offset jy in
                  let dps := if dps <? 1 then dps + shamsi_year_length jy
                             else dps in
                  r <~ j_month_walk walk_fuel jy dps 1 0 ;;
                  let '(jm, jd) := r in Ok (jy, jm, jd))).
  { intros Hw. destruct Hc as [(Hle & _)|(_ & -> & Hdoy)]; [lia|].
    rewrite gregorian_to_shamsi_eq. cbv zeta. rewrite Hdoy.
    replace (y + 622 - 621 - 1) with y by lia.
    replace (y + 622 - 621) with (y + 1) by lia. reflexivity. }
  split.
  - intros (gy' & gm' & gd' & He' & Hb).
    rewrite He in He'. injection He' as <- <- <-.
    destruct (Z_le_dec total (gregorian_year_length (y + 621)));
      [left; assumption | right].
    rewrite Hg in Hb by lia. cbv zeta in Hb.
    destruct (Z.ltb_spec (total - gregorian_year_length (y + 621)) 80) as [H80|H80].
    + split; [exact H80|].
      destruct (Z.ltb_spec (total - gregorian_year_length (y + 621)
                            - new_year_offset y) 1); [|lia].
      set (dps := total - gregorian_year_length (y + 621) - new_year_offset y
                  + shamsi_year_length y) in *.
      pose proof (j_month_walk_spec y dps ltac:(unfold dps, total in *; lia)) as W.
      unfold j_walk_check in W.
      destruct (j_month_walk walk_fuel y dps 1 0) as [[jm jd]| |];
        try discriminate.
      cbn [Py.bind] in Hb. injection Hb as -> ->.
      apply andb_true_iff in W as [_ W]. apply Z.eqb_eq in W.
      unfold dps, total in W. lia.
    + exfalso.
      destruct (j_month_walk walk_fuel (y + 1) _ 1 0) as [[jm jd]| |];
        cbn [Py.bind] in Hb; try discriminate.
      injection Hb as Hy _ _. lia.
  - intros [Hle|[H80 Hlen]].
    + apply round_trip_shamsi_same_year; assumption.
    + destruct (Z_le_dec total (gregorian_year_length (y + 621)));
        [apply round_trip_shamsi_same_year; assumption|].
      exists gy, gm, gd. split; [exact He|].
      rewrite Hg by lia. cbv zeta.
      destruct (Z.ltb_spec (total - gregorian_year_length (y + 621)) 80); [|lia].
      destruct (Z.ltb_spec (total - gregorian_year_length (y + 621)
                            - new_year_offset y) 1); [|unfold total in *; lia].
      replace (total - gregorian_year_length (y + 621) - new_year_offset y
               + shamsi_year_length y)
        with (shamsi_day_of_year y m d) by (unfold total; lia).
      now rewrite (j_month_walk_inverse _ _ _ Hv).
Qed.

Lemma round_trip_shamsi_iff_witness :
  (exists gy gm gd,
      shamsi_to_gregorian 1403 11 1 = Ok (gy, gm, gd)
      /\ gregorian_to_shamsi gy gm gd = Ok (1403, 11, 1))
  <-> (new_year_offset 1403 + shamsi_day_of_year 1403 11 1
       <= gregorian_year_length (1403 + 621)
       \/ (new_year_offset 1403 + shamsi_day_of_year 1403 11 1
           - gregorian_year_length (1403 + 621) < 80
           /\ shamsi_year_length 1403 = gregorian_year_length (1403 + 621))).
Proof. apply (round_trip_shamsi_iff 1403 11 1). reflexivity. Defined.

(** X2: A valid Gregorian date comes back from [shamsi_to_gregorian] after
    [gregorian_to_shamsi] exactly in two cases: its day of the year is past
    the new-year offset of the Shamsi year [gy - 621]; or it is before day
    80 and the Shamsi year [gy - 622] is as long as the Gregorian year
    [gy - 1]. *)
Theorem round_trip_gregorian_iff (gy gm gd : Z) :
  valid_gregorian gy gm gd = true ->
  let dpg := gregorian_day_of_year gy gm gd in
  (exists jy jm jd,
      gregorian_to_shamsi gy gm gd = Ok (jy, jm, jd)
      /\ shamsi_to_gregorian jy jm jd = Ok (gy, gm, gd))
  <-> (new_year_offset (gy - 621) < dpg
       \/ (dpg < 80
           /\ shamsi_year_length (gy - 622) = gregorian_year_length (gy - 1))).
Proof.
  intros Hv. cbv zeta.
  pose proof (gregorian_day_of_year_bounds _ _ _ Hv) as Hd.
  pose proof (year_length_bounds gy 0) as [Hl _].
  set (dpg := gregorian_day_of_year gy gm gd) in *.
  (* the Shamsi date returned, and its day of the year *)
  assert (Hg : exists jm jd,
             let jy := if dpg <? 80 then gy - 622 else gy - 621 in
             let dps0 := dpg - new_year_offset jy in
             let dps := if dps0 <? 1 then dps0 + shamsi_year_length jy else dps0 in
             gregorian_to_shamsi gy gm gd = Ok (jy, jm, jd)
             /\ shamsi_day_of_year jy jm jd = dps).
  { rewrite gregorian_to_shamsi_eq. cbv zeta. fold dpg.
    replace (gy - 621 - 1) with (gy - 622) by lia.
    set (jy := if dpg <? 80 then gy - 622 else gy - 621).
    pose proof (new_year_offset_bounds jy) as Ho.
    pose proof (year_length_bounds 0 jy) as [_ Hj].
    set (dps := if dpg - new_year_offset jy <? 1
                then dpg - new_year_offset jy + shamsi_year_length jy
                else dpg - new_year_offset jy).
    assert (Hs : 1 <= dps <= shamsi_year_length jy).
    { unfold dps. destruct (Z.ltb_spec (dpg - new_year_offset jy) 1); lia. }
    pose proof (j_month_walk_spec jy dps Hs) as W. unfold j_walk_check in W.
    destruct (j_month_walk walk_fuel jy dps 1 0) as [[jm jd]| |];
      try discriminate.
    apply andb_true_iff in W as [_ W]. apply Z.eqb_eq in W.
    exists jm, jd. cbn [Py.bind]. auto. }
  destruct Hg as (jm & jd & Hg & Hs). cbv zeta in Hg, Hs.
  split.
  - intros (jy' & jm' & jd' & Hg' & Hb).
    rewrite Hg in Hg'. injection Hg' as <- <- <-.
    destruct (Z_lt_dec (new_year_offset (gy - 621)) dpg);
      [left; assumption | right].
    rewrite shamsi_to_gregorian_eq in Hb. cbv zeta in Hb. rewrite Hs in Hb.
    destruct (Z.ltb_spec dpg 80) as [H80|H80].
    + split; [exact H80|].
      pose proof (new_year_offset_bounds (gy - 622)) as Ho.
      pose proof (year_length_bounds (gy - 1) (gy - 622)) as [Hl1 Hj].
      replace (gy - 622 + 621) with (gy - 1) in Hb by lia.
      replace (gy - 1 + 1) with gy in Hb by lia.
      destruct (Z.ltb_spec (dpg - new_year_offset (gy - 622)) 1); [|lia].
      replace (new_year_offset (gy - 622)
               + (dpg - new_year_offset (gy - 622) + shamsi_year_length (gy - 622)))
        with (dpg + shamsi_year_length (gy - 622)) in Hb by lia.
      destruct (Z.ltb_spec (gregorian_year_length (gy - 1))
                  (dpg + shamsi_year_length (gy - 622))).
      * pose proof (g_month_walk_spec gy
                      (dpg + shamsi_year_length (gy - 622)
                       - gregorian_year_length (gy - 1)) ltac:(lia)) as W.
        unfold g_walk_check in W.
        destruct (g_month_walk walk_fuel gy _ 1 0) as [[gm' gd']| |];
          try discriminate.
        cbn [Py.bind] in Hb. injection Hb as -> ->.
        apply andb_true_iff in W as [_ W]. apply Z.eqb_eq in W.
        fold dpg in W. lia.
      * exfalso.
        destruct (g_month_walk walk_fuel (gy - 1) _ 1 0) as [[gm' gd']| |];
          cbn [Py.bind] in Hb; try discriminate.
        injection Hb as Hy _ _. lia.
    + exfalso.
      pose proof (new_year_offset_bounds (gy - 621)) as Ho.
      pose proof (year_length_bounds (gy - 621 + 621) (gy - 621)) as [Hl1 Hj].
      destruct (Z.ltb_spec (dpg - new_year_offset (gy - 621)) 1); [|lia].
      destruct (Z.ltb_spec (gregorian_year_length (gy - 621 + 621))
                  (new_year_offset (gy - 621)
                   + (dpg - new_year_offset (gy - 621)
                      + shamsi_year_length (gy - 621)))); [|lia].
      destruct (g_month_walk walk_fuel (gy - 621 + 621 + 1) _ 1 0)
        as [[gm' gd']| |]; cbn [Py.bind] in Hb; try discriminate.
      injection Hb as Hy _ _. lia.
  - intros [Hlt|[H80 Hlen]].
    + apply round_trip_gregorian_after_new_year; assumption.
    + exists (gy - 622), jm, jd.
      destruct (Z.ltb_spec dpg 80); [|lia].
      split; [exact Hg|].
      pose proof (new_year_offset_bounds (gy - 622)) as Ho.
      pose proof (year_length_bounds (gy - 1) (gy - 622)) as [Hl1 Hj].
      rewrite shamsi_to_gregorian_eq. cbv zeta. rewrite Hs.
      replace (gy - 622 + 621) with (gy - 1) by lia.
      replace (gy - 1 + 1) with gy by lia.
      destruct (Z.ltb_spec (dpg - new_year_offset (gy - 622)) 1); [|lia].
      replace (new_year_offset (gy - 622)
               + (dpg - new_year_offset (gy - 622) + shamsi_year_length (gy - 622)))
        with (dpg + shamsi_year_length (gy - 622)) by lia.
      destruct (Z.ltb_spec (gregorian_year_length (gy - 1))
                  (dpg + shamsi_year_length (gy - 622))); [|lia].
      replace (dpg + shamsi_year_length (gy - 622) - gregorian_year_length (gy - 1))
        with dpg by lia.
      unfold dpg. now rewrite (g_month_walk_inverse _ _ _ Hv).
Qed.

Lemma round_trip_gregorian_iff_witness :
  (exists jy jm jd,
      gregorian_to_shamsi 2025 1 20 = Ok (jy, jm, jd)
      /\ shamsi_to_gregorian jy jm jd = Ok (2025, 1, 20))
  <-> (new_year_offset (2025 - 621) < gregorian_day_of_year 2025 1 20
       \/ (gregorian_day_of_year 2025 1 20 < 80
           /\ shamsi_year_length (2025 - 622)
              = gregorian_year_length (2025 - 1))).
Proof. apply (round_trip_gregorian_iff 2025 1 20). reflexivity. Defined.

End RoundTripExact.

(** ** When the renderer succeeds *)

Section RenderOutcome.

Lemma valid_shamsi_day_1 year month :
  1 <= month <= 12 -> valid_shamsi year month 1 = true.
Proof.
  intros Hm. unfold valid_shamsi, get_days_in_shamsi_month.
  destruct (Z.leb_spec 1 month), (Z.leb_spec month 6), (Z.leb_spec 7 month),
    (Z.leb_spec month 11), (Z.eqb_spec month 12); cbn [andb]; try lia;
    destruct (is_shamsi_leap_year year); reflexivity.
Qed.

Lemma new_date_Ok_range y m d dt :
  Datetime.new_date y m d = Ok dt -> 1 <= y <= 9999.
Proof.
  unfold Datetime.new_date, Datetime.MINYEAR, Datetime.MAXYEAR.
  destruct (negb (_ && _ && _)); [discriminate|].
  destruct (Z.leb_spec 1 y), (Z.leb_spec y 9999); cbn [andb negb];
    try discriminate. lia.
Qed.

(** A day count of 1 to 367 days into the Shamsi year is always converted. *)
Lemma shamsi_to_gregorian_of_day_of_year y m d :
  1 <= shamsi_day_of_year y m d <= 367 ->
  exists gy gm gd,
    shamsi_to_gregorian y m d = Ok (gy, gm, gd)
    /\ valid_gregorian gy gm gd = true
    /\ (gy = y + 621 \/ gy = y + 622).
Proof.
  intros Hd. rewrite shamsi_to_gregorian_eq. cbv zeta.
  pose proof (new_year_offset_bounds y) as [Ho _].
  pose proof (year_length_bounds (y + 621) 0) as [Hl _].
  pose proof (year_length_bounds (y + 621 + 1) 0) as [Hl' _].
  set (total := new_year_offset y + shamsi_day_of_year y m d) in *.
  destruct (Z.ltb_spec (gregorian_year_length (y + 621)) total).
  - pose proof (g_month_walk_spec (y + 621 + 1)
                  (total - gregorian_year_length (y + 621)) ltac:(lia)) as W.
    unfold g_walk_check in W.
    destruct (g_month_walk _ _ _ _ _) as [[gm gd]| |]; try discriminate.
    apply andb_true_iff in W as [W1 _].
    exists (y + 621 + 1), gm, gd. cbn [Py.bind].
    split; [reflexivity|]. split; [exact W1 | lia].
  - pose proof (g_month_walk_spec (y + 621) total ltac:(lia)) as W.
    unfold g_walk_check in W.
    destruct (g_month_walk _ _ _ _ _) as [[gm gd]| |]; try discriminate.
    apply andb_true_iff in W as [W1 _].
    exists (y + 621), gm, gd. cbn [Py.bind].
    split; [reflexivity|]. split; [exact W1 | lia].
Qed.

Lemma j_prefix_any y m :
  -13 <= m <= 12 -> 0 <= shamsi_day_of_year y m 0 <= 336.
Proof.
  intros Hm.
  assert (H : j_prefix_max_check y m = true).
  { destruct (is_shamsi_leap_year y) eqn:L.
    - replace (j_prefix_max_check y m) with (j_prefix_max_check 1404 m)
        by (unfold j_prefix_max_check, shamsi_day_of_year; now rewrite L).
      apply (Zrange_forallb (j_prefix_max_check 1404) (-13) 26);
        [vm_compute; reflexivity | lia].
    - replace (j_prefix_max_check y m) with (j_prefix_max_check 1403 m)
        by (unfold j_prefix_max_check, shamsi_day_of_year; now rewrite L).
      apply (Zrange_forallb (j_prefix_max_check 1403) (-13) 26);
        [vm_compute; reflexivity | lia]. }
  unfold j_prefix_max_check in H. lia.
Qed.

(** The renderer on a month 1 to 12 whose first day falls in a Gregorian
    year that [datetime.date] accepts. *)
Lemma print_shamsi_calendar_success year month h gy gm gd :
  1 <= month <= 12 ->
  shamsi_to_gregorian year month 1 = Ok (gy, gm, gd) ->
  1 <= gy <= 9999 ->
  exists name n,
    get_shamsi_month_name month = Ok name
    /\ get_days_in_shamsi_month year month = Ok n
    /\ let lead := (Datetime.weekday (Datetime.mkdate gy gm gd) + 2) mod 7 in
       print_shamsi_calendar year month h
       = (header_month name year :: header_week :: mul "   " lead
            :: fst (month_body lead n h),
          Ok tt).
Proof.
  intros Hm Hg Hy.
  destruct (shamsi_to_gregorian_valid _ _ _ (valid_shamsi_day_1 year month Hm))
    as (gy' & gm' & gd' & Hg' & Hvg & _).
  rewrite Hg in Hg'. injection Hg' as <- <- <-.
  destruct (get_shamsi_month_name_in month ltac:(lia)) as [name Hn].
  destruct (j_step year month Hm) as (d0 & _ & _ & Hdays & _).
  exists name, (if (month =? 12) && is_shamsi_leap_year year then 30 else d0).
  split; [exact Hn|]. split; [exact Hdays|]. cbv zeta.
  rewrite (print_shamsi_calendar_stages _ _ h _ _ _ _ Hn Hg).
  rewrite (new_date_valid _ _ _ Hvg).
  destruct (Z.leb_spec 1 gy); [|lia]. destruct (Z.leb_spec gy 9999); [|lia].
  cbn [andb]. cbv zeta. rewrite Hdays.
  destruct (month_body_spec
              ((Datetime.weekday (Datetime.mkdate gy gm gd) + 2) mod 7)
              (if (month =? 12) && is_shamsi_leap_year year then 30 else d0) h)
    as [Hr _].
  now rewrite Hr.
Qed.

(** X10: When the renderer ends normally and how it fails: it ends normally
    exactly for a month 1 to 12 whose first day falls in a Gregorian year 1
    to 9999, in particular for every Shamsi year from -620 to 9377; a month
    above 12 or below -13 raises [IndexError] before anything is written;
    for a month from -13 to 12 the first day is converted to a date of the
    Gregorian year [year + 621] or [year + 622], and when that year fits a C
    [int] the call ends with [ValueError] in two cases: after the two header
    lines when the year is outside 1 to 9999, and for every month from -13
    to 0, which is looked up as a negative table index. *)
Theorem print_shamsi_calendar_outcome (year month : Z) (h : option Z) :
  (snd (print_shamsi_calendar year month h) = Ok tt
   <-> 1 <= month <= 12
       /\ exists gy gm gd,
            shamsi_to_gregorian year month 1 = Ok (gy, gm, gd)
            /\ 1 <= gy <= 9999)
  /\ (1 <= month <= 12 -> -620 <= year <= 9377 ->
      snd (print_shamsi_calendar year month h) = Ok tt)
  /\ (month < -13 \/ 12 < month ->
      print_shamsi_calendar year month h = ([], Raise IndexError))
  /\ (-13 <= month <= 12 ->
      exists gy gm gd name,
        shamsi_to_gregorian year month 1 = Ok (gy, gm, gd)
        /\ (gy = year + 621 \/ gy = year + 622)
        /\ get_shamsi_month_name month = Ok name
        /\ (Datetime.fits_int gy = true -> ~ 1 <= gy <= 9999 ->
            print_shamsi_calendar year month h
            = ([header_month name year; header_week], Raise ValueError))
        /\ (Datetime.fits_int gy = true -> month <= 0 ->
            snd (print_shamsi_calendar year month h) = Raise ValueError)).
Proof.
  split; [|split; [|split]].
  - split.
    + intros H.
      assert (H0 : print_shamsi_calendar year month h
                   = (fst (print_shamsi_calendar year month h), Ok tt)).
      { rewrite <- H. now destruct (print_shamsi_calendar year month h). }
      pose proof H0 as H1. unfold print_shamsi_calendar in H1 at 1.
      apply bind_Ok_inv in H1 as (o1 & name & o2 & Hn & H1 & _).
      apply bind_Ok_inv in H1 as (? & ? & ? & _ & H1 & _).
      apply bind_Ok_inv in H1 as (? & ? & ? & _ & H1 & _).
      apply bind_Ok_inv in H1 as (? & [[gy gm] gd] & ? & Hg & _ & _).
      unfold Out.lift in Hn, Hg. injection Hn as _ Hn. injection Hg as _ Hg.
      rewrite (print_shamsi_calendar_stages _ _ h _ _ _ _ Hn Hg) in H.
      destruct (Datetime.new_date gy gm gd) as [dt| |] eqn:Hdt;
        try discriminate.
      cbv zeta in H.
      destruct (get_days_in_shamsi_month year month) as [n| |] eqn:Hd;
        try discriminate.
      split; [eapply get_days_in_shamsi_month_Ok, Hd|].
      exists gy, gm, gd. split; [exact Hg|].
      eapply new_date_Ok_range, Hdt.
    + intros (Hm & gy & gm & gd & Hg & Hy).
      destruct (print_shamsi_calendar_success year month h _ _ _ Hm Hg Hy)
        as (name & n & _ & _ & He).
      cbv zeta in He. now rewrite He.
  - intros Hm Hy.
    destruct (shamsi_to_gregorian_valid _ _ _ (valid_shamsi_day_1 year month Hm))
      as (gy & gm & gd & Hg & _ & Hc). cbv zeta in Hc.
    destruct (print_shamsi_calendar_success year month h gy gm gd Hm Hg)
      as (name & n & _ & _ & He); [lia|].
    cbv zeta in He. now rewrite He.
  - intros Hm. unfold print_shamsi_calendar.
    now rewrite get_shamsi_month_name_out.
  - intros Hm.
    destruct (get_shamsi_month_name_in month ltac:(lia)) as [name Hn].
    destruct (shamsi_to_gregorian_of_day_of_year year month 1)
      as (gy & gm & gd & Hg & Hvg & Hgy).
    { rewrite shamsi_day_of_year_add.
      pose proof (j_prefix_any year month ltac:(lia)). lia. }
    exists gy, gm, gd, name.
    split; [exact Hg|]. split; [exact Hgy|]. split; [exact Hn|].
    rewrite (print_shamsi_calendar_stages _ _ h _ _ _ _ Hn Hg).
    rewrite (new_date_valid _ _ _ Hvg).
    split; intros Hfit.
    + intros Hy. rewrite Hfit.
      destruct (Z.leb_spec 1 gy); [destruct (Z.leb_spec gy 9999); [lia|]|];
        reflexivity.
    + intros Hm0. rewrite Hfit.
      destruct ((1 <=? gy) && (gy <=? 9999)); [|reflexivity].
      cbv zeta.
      assert (Hd : get_days_in_shamsi_month year month = Raise ValueError).
      { unfold get_days_in_shamsi_month.
        destruct (Z.leb_spec 1 month); [lia|]. cbn [andb].
        destruct (Z.leb_spec 7 month); [lia|]. cbn [andb].
        destruct (Z.eqb_spec month 12); [lia | reflexivity]. }
      now rewrite Hd.
Qed.

Lemma print_shamsi_calendar_outcome_witness :
  exists gy gm gd name,
    shamsi_to_gregorian 9379 1 1 = Ok (gy, gm, gd)
    /\ (gy = 9379 + 621 \/ gy = 9379 + 622)
    /\ get_shamsi_month_name 1 = Ok name
    /\ (Datetime.fits_int gy = true -> ~ 1 <= gy <= 9999 ->
        print_shamsi_calendar 9379 1 None
        = ([header_month name 9379; header_week], Raise ValueError))
    /\ (Datetime.fits_int gy = true -> 1 <= 0 ->
        snd (print_shamsi_calendar 9379 1 None) = Raise ValueError).
Proof.
  apply (proj2 (proj2 (proj2 (print_shamsi_calendar_outcome 9379 1 None)))).
  lia.
Defined.

End RenderOutcome.

(** ** The layout of the grid *)

Section Layout.

Lemma Zrange_S lo n : Zrange lo (S n) = lo :: Zrange (lo + 1) n.
Proof.
  unfold Zrange. cbn [seq map]. f_equal; [lia|].
  rewrite <- List.seq_shift, List.map_map. apply List.map_ext. intros i. lia.
Qed.

Lemma Zrange_snoc lo n : Zrange lo (S n) = Zrange lo n ++ [lo + Z.of_nat n].
Proof.
  unfold Zrange. rewrite List.seq_S, List.map_app. reflexivity.
Qed.

Lemma day_loop_S_cell fuel lead n h cur :
  day_loop (S fuel) lead n h cur
  = if cur <=? n then
      _ <<~ Out.print (day_cell h cur) EmptyString ;;
      _ <<~ (if (lead + cur) mod 7 =? 0
             then Out.print EmptyString nl else Out.ret tt) ;;
      day_loop fuel lead n h (cur + 1)
    else Out.ret tt.
Proof.
  rewrite day_loop_S. unfold day_cell.
  destruct h as [c|]; [destruct (cur =? c)|]; reflexivity.
Qed.

(** The chunks of the day loop, day by day. *)
Lemma day_loop_chunks lead n h fuel : forall cur,
  n - cur + 1 <= Z.of_nat fuel ->
  fst (day_loop fuel lead n h cur)
  = flat_map (day_chunks lead h) (Zrange cur (Z.to_nat (n - cur + 1))).
Proof.
  induction fuel as [|fuel IH]; intros cur Hf.
  - cbn [day_loop]. destruct (Z.leb_spec cur n); [lia|].
    replace (Z.to_nat (n - cur + 1)) with 0%nat by lia. reflexivity.
  - rewrite day_loop_S_cell. destruct (Z.leb_spec cur n) as [Hc|Hc].
    + replace (Z.to_nat (n - cur + 1)) with (S (Z.to_nat (n - (cur + 1) + 1)))
        by lia.
      rewrite Zrange_S. cbn [flat_map]. rewrite <- (IH (cur + 1)) by lia.
      rewrite bind_eq. cbn [Out.print fst snd app]. rewrite append_empty_r.
      rewrite bind_eq. unfold day_chunks.
      destruct ((lead + cur) mod 7 =? 0); reflexivity.
    + replace (Z.to_nat (n - cur + 1)) with 0%nat by lia. reflexivity.
Qed.

(** X11: The whole output of a month that is rendered: the two header lines, the
    leading blanks, then for each day 1 to [n] in order its cell, followed
    by a line break exactly when [leading_spaces + day] is a multiple of 7,
    then one line break when the last row is full and two otherwise. *)
Theorem print_shamsi_calendar_layout (year month : Z) (h : option Z)
    (gy gm gd : Z) :
  1 <= month <= 12 ->
  shamsi_to_gregorian year month 1 = Ok (gy, gm, gd) ->
  1 <= gy <= 9999 ->
  exists name n,
    get_shamsi_month_name month = Ok name
    /\ get_days_in_shamsi_month year month = Ok n
    /\ let lead := (Datetime.weekday (Datetime.mkdate gy gm gd) + 2) mod 7 in
       fst (print_shamsi_calendar year month h)
       = [header_month name year; header_week; mul "   " lead]
         ++ flat_map (day_chunks lead h) (Zrange 1 (Z.to_nat n))
         ++ (if (lead + n) mod 7 =? 0 then [nl] else [nl; nl]).
Proof.
  intros Hm Hg Hy.
  destruct (print_shamsi_calendar_success year month h _ _ _ Hm Hg Hy)
    as (name & n & Hn & Hd & He).
  exists name, n. split; [exact Hn|]. split; [exact Hd|].
  cbv zeta in *. rewrite He. cbn [fst app]. do 3 f_equal.
  unfold month_body. rewrite bind_eq.
  destruct (day_loop_spec ((Datetime.weekday (Datetime.mkdate gy gm gd) + 2) mod 7)
              n h (Z.to_nat n) 1 ltac:(lia)) as [Hr _].
  rewrite Hr, day_loop_chunks by lia.
  replace (Z.to_nat (n - 1 + 1)) with (Z.to_nat n) by lia.
  f_equal. rewrite bind_eq.
  destruct (_ =? 0); reflexivity.
Qed.

Lemma print_shamsi_calendar_layout_witness :
  exists name n,
    get_shamsi_month_name 1 = Ok name
    /\ get_days_in_shamsi_month 1403 1 = Ok n
    /\ let lead := (Datetime.weekday (Datetime.mkdate 2024 3 20) + 2) mod 7 in
       fst (print_shamsi_calendar 1403 1 (Some 5))
       = [header_month name 1403; header_week; mul "   " lead]
         ++ flat_map (day_chunks lead (Some 5)) (Zrange 1 (Z.to_nat n))
         ++ (if (lead + n) mod 7 =? 0 then [nl] else [nl; nl]).
Proof.
  apply (print_shamsi_calendar_layout 1403 1 (Some 5) 2024 3 20);
    [lia | reflexivity | lia].
Defined.

End Layout.

(** ** Rows and widths of the grid *)

Section Rows.

Lemma has_char_uint_NL u : has_char NL (NilEmpty.string_of_uint u) = false.
Proof. induction u; cbn [NilEmpty.string_of_uint has_char]; auto. Qed.

Lemma has_char_str_NL n : has_char NL (str n) = false.
Proof.
  unfold str, NilZero.string_of_int, NilZero.string_of_uint.
  destruct (Z.to_int n) as [u|u]; destruct u;
    cbn [has_char]; try reflexivity; apply has_char_uint_NL.
Qed.

Lemma has_char_day_cell_NL h i : has_char NL (day_cell h i) = false.
Proof.
  assert (Hf : has_char NL (fmt3 i) = false).
  { unfold fmt3, mul.
    now rewrite has_char_app, has_char_repeat, has_char_str_NL. }
  unfold day_cell. destruct h as [c|]; [|exact Hf].
  destruct (i =? c); [|exact Hf].
  unfold mul. rewrite !has_char_app, has_char_repeat, has_char_str_NL;
    reflexivity.
Qed.

(** A day cell is never a bare line break. *)
Lemma day_cell_not_nl h i : String.eqb nl (day_cell h i) = false.
Proof.
  destruct (String.eqb_spec nl (day_cell h i)) as [E|]; [|reflexivity].
  pose proof (has_char_day_cell_NL h i) as H. rewrite <- E in H.
  discriminate.
Qed.

Lemma line_breaks_app a b :
  line_breaks (a ++ b) = (line_breaks a + line_breaks b)%nat.
Proof. unfold line_breaks. now rewrite List.filter_app, length_app. Qed.

Lemma line_breaks_day_chunks lead h i :
  line_breaks (day_chunks lead h i)
  = if (lead + i) mod 7 =? 0 then 1%nat else 0%nat.
Proof.
  unfold line_breaks, day_chunks. cbn [List.filter].
  rewrite day_cell_not_nl. destruct (_ =? 0); reflexivity.
Qed.

Lemma line_breaks_days lead h (k : nat) :
  Z.of_nat (line_breaks (flat_map (day_chunks lead h) (Zrange 1 k)))
  = (lead + Z.of_nat k) / 7 - lead / 7.
Proof.
  induction k as [|k IH].
  - cbn [Zrange seq map flat_map line_breaks List.filter length].
    rewrite Z.add_0_r. lia.
  - rewrite Zrange_snoc, flat_map_app, line_breaks_app. cbn [flat_map].
    rewrite app_nil_r, line_breaks_day_chunks, Nat2Z.inj_add, IH.
    destruct (Z.eqb_spec ((lead + (1 + Z.of_nat k)) mod 7) 0) as [E|E];
      rewrite (Nat2Z.inj_succ k); revert E; generalize (Z.of_nat k);
      intros z E; Z.div_mod_to_equations; lia.
Qed.

Lemma Zrange_app lo a b :
  Zrange lo (a + b) = Zrange lo a ++ Zrange (lo + Z.of_nat a) b.
Proof.
  revert lo. induction a as [|a IH]; intros lo.
  - replace (lo + Z.of_nat 0) with lo by lia. reflexivity.
  - cbn [Nat.add]. rewrite !Zrange_S, IH. cbn [app].
    replace (lo + Z.of_nat (S a)) with (lo + 1 + Z.of_nat a) by lia.
    reflexivity.
Qed.

(** X12: Where each day stands in the grid: the loop over [n] days begins with
    what the loop over the first [k] days writes, followed by the cell of
    day [k + 1]; and the loop over [k] days writes
    [(lead + k) / 7 - lead / 7] line breaks.  With [lead] from 0 to 6 day
    [k + 1] therefore stands in row [(lead + k) / 7], seven cells to a row,
    the leading blanks counted in the first. *)
Theorem day_loop_rows (lead n k : Z) (h : option Z) :
  0 <= k < n ->
  exists rest,
    fst (day_loop (Z.to_nat n) lead n h 1)
    = fst (day_loop (Z.to_nat k) lead k h 1) ++ day_cell h (k + 1) :: rest
    /\ Z.of_nat (line_breaks (fst (day_loop (Z.to_nat k) lead k h 1)))
       = (lead + k) / 7 - lead / 7
    /\ Z.of_nat (line_breaks (fst (day_loop (Z.to_nat n) lead n h 1)))
       = (lead + n) / 7 - lead / 7.
Proof.
  intros Hk.
  assert (Hb : forall j, 0 <= j ->
             Z.of_nat (line_breaks (fst (day_loop (Z.to_nat j) lead j h 1)))
             = (lead + j) / 7 - lead / 7).
  { intros j Hj. rewrite day_loop_chunks by lia.
    replace (Z.to_nat (j - 1 + 1)) with (Z.to_nat j) by lia.
    rewrite line_breaks_days. f_equal. f_equal. lia. }
  rewrite (Hb k), (Hb n) by lia.
  rewrite !day_loop_chunks by lia.
  replace (Z.to_nat (n - 1 + 1)) with (Z.to_nat k + S (Z.to_nat (n - k - 1)))%nat
    by lia.
  replace (Z.to_nat (k - 1 + 1)) with (Z.to_nat k) by lia.
  rewrite Zrange_app, flat_map_app, Zrange_S. cbn [flat_map].
  replace (1 + Z.of_nat (Z.to_nat k)) with (k + 1) by lia.
  eexists. split; [unfold day_chunks at 2; cbn [app]; reflexivity|].
  split; reflexivity.
Qed.

Lemma day_loop_rows_witness :
  exists rest,
    fst (day_loop (Z.to_nat 31) 4 31 None 1)
    = fst (day_loop (Z.to_nat 3) 4 3 None 1) ++ day_cell None (3 + 1) :: rest
    /\ Z.of_nat (line_breaks (fst (day_loop (Z.to_nat 3) 4 3 None 1)))
       = (4 + 3) / 7 - 4 / 7
    /\ Z.of_nat (line_breaks (fst (day_loop (Z.to_nat 31) 4 31 None 1)))
       = (4 + 31) / 7 - 4 / 7.
Proof. apply (day_loop_rows 4 31 3 None). lia. Defined.

(** Widths of the two kinds of cell, for days 0 to 999. *)
Lemma cell_width i :
  0 <= i <= 999 ->
  len (fmt3 i) = 3 /\ len (mul " " (3 - len (str i))) + len (str i) = 3.
Proof.
  intros Hi.
  pose proof (Zrange_forallb cell_width_check 0 1000
                ltac:(vm_compute; reflexivity) i ltac:(lia)) as H.
  unfold cell_width_check in H.
  apply andb_true_iff in H as [H1 H2]. apply Z.eqb_eq in H1, H2. auto.
Qed.

Lemma In_Zrange lo n z : In z (Zrange lo n) -> lo <= z < lo + Z.of_nat n.
Proof.
  unfold Zrange. intros H. apply in_map_iff in H as (i & <- & Hi).
  apply in_seq in Hi. lia.
Qed.

(** X13: Every chunk the day loop writes for a month of at most 999 days is
    a line break, or a cell of exactly three characters, or the highlighted
    cell of the day to highlight: padding, [BLACK], [WHITE_BACKGROUND], the
    digits and [RESET], where padding and digits are three characters
    together.  So every day takes three columns, highlighted or not. *)
Theorem day_loop_cell_widths (lead n : Z) (h : option Z) (c : string) :
  0 <= n <= 999 ->
  In c (fst (day_loop (Z.to_nat n) lead n h 1)) ->
  c = nl
  \/ len c = 3
  \/ (exists i,
         h = Some i /\ 1 <= i <= n
         /\ c = mul " " (3 - len (str i)) +++ BLACK +++ WHITE_BACKGROUND
                +++ str i +++ RESET
         /\ len (mul " " (3 - len (str i))) + len (str i) = 3).
Proof.
  intros Hn Hc. rewrite day_loop_chunks in Hc by lia.
  apply in_flat_map in Hc as (i & Hi & Hc).
  apply In_Zrange in Hi.
  destruct (cell_width i ltac:(lia)) as [Hw Hp].
  unfold day_chunks in Hc. cbn [In] in Hc.
  destruct Hc as [<- | Hc].
  - unfold day_cell. destruct h as [d|]; [|now right; left].
    destruct (Z.eqb_spec i d) as [->|]; [|now right; left].
    right. right. exists d.
    split; [reflexivity|]. split; [lia|]. split; [reflexivity | exact Hp].
  - destruct (_ =? 0); cbn [In] in Hc; [left | contradiction].
    destruct Hc as [<- | []]. reflexivity.
Qed.

Lemma day_loop_cell_widths_witness :
  " 17"%string = nl
  \/ len " 17" = 3
  \/ (exists i,
         None = Some i /\ 1 <= i <= 31
         /\ " 17"%string = mul " " (3 - len (str i)) +++ BLACK
                            +++ WHITE_BACKGROUND +++ str i +++ RESET
         /\ len (mul " " (3 - len (str i))) + len (str i) = 3).
Proof.
  apply (day_loop_cell_widths 4 31 None " 17"); [lia|].
  vm_compute. intuition.
Defined.

End Rows.

(** ** The current day and the year view *)

Section Views.

Lemma highlighted_cells_rendered month name year lead n h :
  get_shamsi_month_name month = Ok name ->
  highlighted_cells
    (header_month name year :: header_week :: mul "   " lead
       :: fst (month_body lead n h))
  = expected_highlights 1 n h.
Proof.
  intros Hn. destruct (month_body_spec lead n h) as [_ Hc].
  rewrite !highlighted_cells_cons, Hc.
  rewrite (header_month_no_marker _ _ _ Hn).
  rewrite (no_marker (mul _ _)) by (now apply has_char_repeat).
  reflexivity.
Qed.

(** Outcome and highlights of one month 1 to 12, whatever the day to
    highlight: it is rendered when its first day is in the range of
    [datetime.date]; otherwise it ends with [ValueError], provided the
    Gregorian years [year + 621] and [year + 622] fit a C [int]. *)
Lemma print_shamsi_calendar_month year month h :
  1 <= month <= 12 ->
  exists n,
    get_days_in_shamsi_month year month = Ok n
    /\ (date_in_range year month = true ->
        snd (print_shamsi_calendar year month h) = Ok tt
        /\ highlighted_cells (fst (print_shamsi_calendar year month h))
           = expected_highlights 1 n h)
    /\ (date_in_range year month = false ->
        Datetime.fits_int (year + 621) = true ->
        Datetime.fits_int (year + 622) = true ->
        snd (print_shamsi_calendar year month h) = Raise ValueError).
Proof.
  intros Hm.
  destruct (shamsi_to_gregorian_valid _ _ _ (valid_shamsi_day_1 year month Hm))
    as (gy & gm & gd & Hg & Hvg & Hc). cbv zeta in Hc.
  destruct (j_step year month Hm) as (d0 & _ & _ & Hdays & _).
  eexists. split; [exact Hdays|].
  unfold date_in_range. rewrite Hg. split; intros Hr.
  - destruct (print_shamsi_calendar_success year month h gy gm gd Hm Hg
                ltac:(lia)) as (name & n & Hn & Hd & He).
    cbv zeta in He. rewrite He. cbn [fst snd]. split; [reflexivity|].
    rewrite Hdays in Hd. injection Hd as <-.
    now apply (highlighted_cells_rendered month).
  - intros F1 F2.
    destruct (get_shamsi_month_name_in month ltac:(lia)) as [name Hn].
    rewrite (print_shamsi_calendar_stages _ _ h _ _ _ _ Hn Hg).
    rewrite (new_date_valid _ _ _ Hvg), Hr.
    assert (Hf : Datetime.fits_int gy = true).
    { destruct Hc as [(_ & -> & _)|(_ & -> & _)]; assumption. }
    now rewrite Hf.
Qed.

(** X14: The default view: the program converts today's Gregorian date and
    renders its Shamsi month with its day to highlight.  For every valid
    Gregorian date of the years 2 to 9998 the conversion returns a date,
    the month is rendered, and exactly one cell is highlighted. *)
Theorem today_is_highlighted (gy gm gd : Z) :
  valid_gregorian gy gm gd = true ->
  2 <= gy <= 9998 ->
  exists cy cm cd out,
    gregorian_to_shamsi gy gm gd = Ok (cy, cm, cd)
    /\ print_shamsi_calendar cy cm (Some cd) = (out, Ok tt)
    /\ highlighted_cells out = 1%nat.
Proof.
  intros Hv Hy.
  destruct (gregorian_to_shamsi_valid _ _ _ Hv) as (cy & cm & cd & Hc & Hvs & Hcy).
  apply valid_shamsi_elim in Hvs as (n & Hn & Hd & Hm).
  destruct (shamsi_to_gregorian_valid _ _ _ (valid_shamsi_day_1 cy cm Hm))
    as (gy' & gm' & gd' & Hg & _ & Hcase). cbv zeta in Hcase.
  destruct (print_shamsi_calendar_month cy cm (Some cd) Hm) as (n' & Hn' & Hs & _).
  rewrite Hn in Hn'. injection Hn' as <-.
  assert (Hr : date_in_range cy cm = true).
  { unfold date_in_range. rewrite Hg. lia. }
  destruct (Hs Hr) as [Hs1 Hh]. clear Hs. rename Hs1 into Hs.
  exists cy, cm, cd, (fst (print_shamsi_calendar cy cm (Some cd))).
  split; [exact Hc|]. split.
  - rewrite <- Hs. now destruct (print_shamsi_calendar cy cm (Some cd)).
  - rewrite Hh. unfold expected_highlights.
    destruct (Z.leb_spec 1 cd), (Z.leb_spec cd n); try lia. reflexivity.
Qed.

Lemma today_is_highlighted_witness :
  exists cy cm cd out,
    gregorian_to_shamsi 2024 3 20 = Ok (cy, cm, cd)
    /\ print_shamsi_calendar cy cm (Some cd) = (out, Ok tt)
    /\ highlighted_cells out = 1%nat.
Proof. apply (today_is_highlighted 2024 3 20); [reflexivity | lia]. Defined.

Lemma year_months_eq ty cy cm cd m ms :
  year_months (m :: ms) ty cy cm cd
  = (_ <<~ print_shamsi_calendar ty m (year_highlight ty cy cm cd m) ;;
     year_months ms ty cy cm cd).
Proof.
  cbn [year_months]. unfold year_highlight.
  destruct ((ty =? cy) && (m =? cm)); reflexivity.
Qed.

Lemma year_months_outcome ty cy cm cd months :
  (forall m, In m months -> 1 <= m <= 12) ->
  Datetime.fits_int (ty + 621) = true ->
  Datetime.fits_int (ty + 622) = true ->
  snd (year_months months ty cy cm cd)
  = (if forallb (date_in_range ty) months then Ok tt else Raise ValueError).
Proof.
  intros Hall F1 F2.
  induction months as [|m ms IH]; [reflexivity|].
  rewrite year_months_eq. cbn [forallb]. rewrite bind_eq. cbn [snd].
  assert (Hm : 1 <= m <= 12) by (apply Hall; now left).
  destruct (print_shamsi_calendar_month ty m (year_highlight ty cy cm cd m) Hm)
    as (n & _ & Hok & Herr).
  destruct (date_in_range ty m) eqn:Hr; cbn [andb].
  - destruct (Hok eq_refl) as [Hs _]. rewrite Hs.
    apply IH. intros x Hx. apply Hall. now right.
  - now rewrite (Herr eq_refl F1 F2).
Qed.

(** When every month is rendered, the output of the loop is the outputs of
    the months one after the other. *)
Lemma year_months_output ty cy cm cd months :
  (forall m, In m months -> 1 <= m <= 12) ->
  forallb (date_in_range ty) months = true ->
  fst (year_months months ty cy cm cd)
  = flat_map (fun m => fst (print_shamsi_calendar ty m
                              (year_highlight ty cy cm cd m))) months.
Proof.
  intros Hall Hr.
  induction months as [|m ms IH]; [reflexivity|].
  rewrite year_months_eq. cbn [forallb flat_map] in *.
  apply andb_true_iff in Hr as [Hrm Hrs].
  assert (Hm : 1 <= m <= 12) by (apply Hall; now left).
  destruct (print_shamsi_calendar_month ty m (year_highlight ty cy cm cd m) Hm)
    as (n & _ & Hok & _).
  destruct (Hok Hrm) as [Hs _].
  rewrite bind_eq. cbn [fst]. rewrite Hs.
  rewrite IH; [reflexivity | intros x Hx; apply Hall; now right | exact Hrs].
Qed.

Lemma year_months_highlights ty cy cm cd months :
  List.NoDup months ->
  (forall m, In m months -> 1 <= m <= 12) ->
  forallb (date_in_range ty) months = true ->
  valid_shamsi cy cm cd = true ->
  highlighted_cells (fst (year_months months ty cy cm cd))
  = if (ty =? cy) && existsb (Z.eqb cm) months then 1%nat else 0%nat.
Proof.
  intros Hnd Hall Hr Hv.
  apply valid_shamsi_elim in Hv as (n & Hn & Hd & Hcm).
  induction months as [|m ms IH]; [now rewrite andb_false_r|].
  rewrite year_months_eq. cbn [forallb existsb] in *.
  apply andb_true_iff in Hr as [Hrm Hrs].
  inversion Hnd as [|? ? Hnot Hnd']; subst.
  assert (Hm : 1 <= m <= 12) by (apply Hall; now left).
  specialize (IH Hnd' (fun x Hx => Hall x (or_intror Hx)) Hrs).
  destruct (print_shamsi_calendar_month ty m (year_highlight ty cy cm cd m) Hm)
    as (n' & Hn' & Hok & _).
  destruct (Hok Hrm) as [Hs Hh].
  rewrite bind_eq. cbn [fst]. rewrite Hs, highlighted_cells_app, Hh, IH.
  unfold year_highlight, expected_highlights.
  destruct (Z.eqb_spec ty cy) as [->|Hty]; cbn [andb]; [|reflexivity].
  destruct (Z.eqb_spec m cm) as [->|Hmc].
  - rewrite (Z.eqb_refl cm). cbn [orb].
    rewrite Hn in Hn'. injection Hn' as <-.
    assert (He : existsb (Z.eqb cm) ms = false).
    { destruct (existsb (Z.eqb cm) ms) eqn:E; [|reflexivity].
      apply existsb_exists in E as (x & Hx & Hxe).
      apply Z.eqb_eq in Hxe. subst x. contradiction. }
    rewrite He.
    destruct (Z.leb_spec 1 cd), (Z.leb_spec cd n); try lia. reflexivity.
  - assert (Hc : (cm =? m) = false) by (apply Z.eqb_neq; congruence).
    rewrite Hc. reflexivity.
Qed.

Lemma shamsi_day_of_year_12 y : shamsi_day_of_year y 12 0 = 336.
Proof. unfold shamsi_day_of_year. destruct (is_shamsi_leap_year y); reflexivity. Qed.

Lemma date_in_range_intro ty m :
  1 <= m <= 12 -> -620 <= ty <= 9377 -> date_in_range ty m = true.
Proof.
  intros Hm Hy.
  destruct (shamsi_to_gregorian_valid _ _ _ (valid_shamsi_day_1 ty m Hm))
    as (gy & gm & gd & Hg & _ & Hc). cbv zeta in Hc.
  unfold date_in_range. rewrite Hg. lia.
Qed.

Lemma date_in_range_month_1 ty : date_in_range ty 1 = true -> -620 <= ty.
Proof.
  destruct (shamsi_to_gregorian_valid _ _ _ (valid_shamsi_day_1 ty 1 ltac:(lia)))
    as (gy & gm & gd & Hg & _ & Hc). cbv zeta in Hc.
  rewrite shamsi_day_of_year_add, shamsi_day_of_year_1 in Hc.
  pose proof (new_year_offset_bounds ty) as [Ho _].
  pose proof (year_length_bounds (ty + 621) 0) as [Hl _].
  unfold date_in_range. rewrite Hg. lia.
Qed.

Lemma date_in_range_month_12 ty : date_in_range ty 12 = true -> ty <= 9377.
Proof.
  destruct (shamsi_to_gregorian_valid _ _ _ (valid_shamsi_day_1 ty 12 ltac:(lia)))
    as (gy & gm & gd & Hg & _ & Hc). cbv zeta in Hc.
  rewrite shamsi_day_of_year_add, shamsi_day_of_year_12 in Hc.
  pose proof (new_year_offset_bounds ty) as [Ho _].
  pose proof (year_length_bounds (ty + 621) 0) as [Hl _].
  unfold date_in_range. rewrite Hg. lia.
Qed.

Lemma date_in_range_year ty :
  forallb (date_in_range ty) [1; 2; 3; 4; 5; 6; 7; 8; 9; 10; 11; 12]
  = (-620 <=? ty) && (ty <=? 9377).
Proof.
  destruct (Z.leb_spec (-620) ty) as [Hlo|Hlo];
    [destruct (Z.leb_spec ty 9377) as [Hhi|Hhi]|]; cbn [andb].
  - cbn [forallb]. rewrite !date_in_range_intro by lia. reflexivity.
  - destruct (forallb _ _) eqn:F; [|reflexivity].
    rewrite forallb_forall in F.
    pose proof (date_in_range_month_12 ty
                  (F 12 ltac:(cbn [In]; intuition lia))). lia.
  - destruct (forallb _ _) eqn:F; [|reflexivity].
    rewrite forallb_forall in F.
    pose proof (date_in_range_month_1 ty
                  (F 1 ltac:(cbn [In]; intuition lia))). lia.
Qed.

(** X15: The year view, given a valid current Shamsi date.  For the Shamsi
    years -620 to 9377 each of the twelve months is rendered, the output is
    the outputs of months 1 to 12 one after the other, the exit status is 0,
    and exactly one cell is highlighted when the year is the current year
    and none otherwise.  For every other year whose Gregorian years
    [year + 621] and [year + 622] fit a C [int], a month fails with
    [ValueError], the output ends with the three usage lines and the exit
    status is 1. *)
Theorem year_view_spec (ty cy cm cd : Z) :
  valid_shamsi cy cm cd = true ->
  (-620 <= ty <= 9377 ->
   exists out,
     year_view ty cy cm cd = (out, Ok 0)
     /\ out = flat_map (fun m => fst (print_shamsi_calendar ty m
                                       (year_highlight ty cy cm cd m)))
                 [1; 2; 3; 4; 5; 6; 7; 8; 9; 10; 11; 12]
     /\ (forall m, 1 <= m <= 12 ->
         snd (print_shamsi_calendar ty m (year_highlight ty cy cm cd m))
         = Ok tt)
     /\ highlighted_cells out = if ty =? cy then 1%nat else 0%nat)
  /\ (~ -620 <= ty <= 9377 ->
      Datetime.fits_int (ty + 621) = true ->
      Datetime.fits_int (ty + 622) = true ->
      exists out, year_view ty cy cm cd = (out ++ usage_lines, Ok 1)).
Proof.
  intros Hv.
  assert (Hall : forall m, In m [1; 2; 3; 4; 5; 6; 7; 8; 9; 10; 11; 12] ->
                           1 <= m <= 12) by (cbn [In]; intros m Hm; lia).
  unfold year_view.
  destruct (year_months _ ty cy cm cd) as [o r] eqn:E.
  split.
  - intros Hy.
    assert (F1 : Datetime.fits_int (ty + 621) = true)
      by (unfold Datetime.fits_int, Datetime.INT_MIN, Datetime.INT_MAX; lia).
    assert (F2 : Datetime.fits_int (ty + 622) = true)
      by (unfold Datetime.fits_int, Datetime.INT_MIN, Datetime.INT_MAX; lia).
    assert (Hr : forallb (date_in_range ty) [1; 2; 3; 4; 5; 6; 7; 8; 9; 10; 11; 12]
                 = true) by (rewrite date_in_range_year; lia).
    pose proof (year_months_outcome ty cy cm cd _ Hall F1 F2) as Ho.
    rewrite Hr, E in Ho. cbn [snd] in Ho. subst r.
    exists o. split; [reflexivity|].
    replace o with (fst (year_months [1; 2; 3; 4; 5; 6; 7; 8; 9; 10; 11; 12]
                           ty cy cm cd)) by now rewrite E.
    split; [now apply year_months_output|]. split.
    + intros m Hm.
      destruct (print_shamsi_calendar_month ty m
                  (year_highlight ty cy cm cd m) Hm) as (n & _ & Hok & _).
      now destruct (Hok (date_in_range_intro ty m Hm Hy)).
    + rewrite year_months_highlights; try assumption.
      * apply valid_shamsi_elim in Hv as (n & _ & _ & Hcm).
        assert (He : existsb (Z.eqb cm) [1; 2; 3; 4; 5; 6; 7; 8; 9; 10; 11; 12]
                     = true).
        { apply existsb_exists. exists cm. split; [cbn [In]; lia|].
          apply Z.eqb_refl. }
        now rewrite He, andb_true_r.
      * repeat (constructor; [cbn [In]; intuition lia|]). constructor.
  - intros Hy F1 F2.
    pose proof (year_months_outcome ty cy cm cd _ Hall F1 F2) as Ho.
    rewrite date_in_range_year, E in Ho. cbn [snd] in Ho.
    assert (Hb : (-620 <=? ty) && (ty <=? 9377) = false) by lia.
    rewrite Hb in Ho. subst r. exists o. reflexivity.
Qed.

Lemma year_view_spec_witness :
  (-620 <= 1403 <= 9377 ->
   exists out,
     year_view 1403 1403 1 5 = (out, Ok 0)
     /\ out = flat_map (fun m => fst (print_shamsi_calendar 1403 m
                                       (year_highlight 1403 1403 1 5 m)))
                 [1; 2; 3; 4; 5; 6; 7; 8; 9; 10; 11; 12]
     /\ (forall m, 1 <= m <= 12 ->
         snd (print_shamsi_calendar 1403 m (year_highlight 1403 1403 1 5 m))
         = Ok tt)
     /\ highlighted_cells out = if 1403 =? 1403 then 1%nat else 0%nat)
  /\ (~ -620 <= 1403 <= 9377 ->
      Datetime.fits_int (1403 + 621) = true ->
      Datetime.fits_int (1403 + 622) = true ->
      exists out, year_view 1403 1403 1 5 = (out ++ usage_lines, Ok 1)).
Proof. apply (year_view_spec 1403 1403 1 5). reflexivity. Defined.

End Views.

(** ** The leading blank cells *)

Section LeadingBlanks.

Lemma length_repeat_nat s k :
  String.length (repeat_nat s k) = (k * String.length s)%nat.
Proof.
  induction k as [|k IH]; cbn [repeat_nat]; [reflexivity|].
  assert (Happ : forall a b,
            String.length (a +++ b) = (String.length a + String.length b)%nat).
  { intros a b. induction a as [|x a IHa]; cbn [String.append String.length];
      [reflexivity | now rewrite IHa]. }
  rewrite Happ, IH. reflexivity.
Qed.

Lemma len_blank_cells lead : 0 <= lead -> len (mul "   " lead) = 3 * lead.
Proof.
  intros H. unfold len, mul. rewrite length_repeat_nat.
  cbn [String.length]. lia.
Qed.

Lemma get_days_in_shamsi_month_ge_29 y m n :
  get_days_in_shamsi_month y m = Ok n -> 29 <= n.
Proof.
  unfold get_days_in_shamsi_month.
  destruct (_ && _); [intros [= <-]; lia|].
  destruct (_ && _); [intros [= <-]; lia|].
  destruct (_ =? _); [|discriminate].
  destruct (is_shamsi_leap_year y); intros [= <-]; lia.
Qed.

(** The body of a month begins with the cell of day 1. *)
Lemma month_body_first_cell lead n h :
  1 <= n -> exists rest, fst (month_body lead n h) = day_cell h 1 :: rest.
Proof.
  intros Hn. unfold month_body. rewrite bind_eq. cbn [fst].
  rewrite day_loop_chunks by lia.
  replace (Z.to_nat (n - 1 + 1)) with (S (Z.to_nat (n - 1))) by lia.
  rewrite Zrange_S. cbn [flat_map]. unfold day_chunks at 1. cbn [app].
  eexists. reflexivity.
Qed.

(** C9, as the code has it: for a month 1 to 12 whose first day falls in a
    Gregorian year 1 to 9999 (the years [datetime.date] accepts), the chunk
    written after the two header lines is [(w + 2) mod 7] blank cells of
    three spaces, [w] being the weekday (Monday 0 to Sunday 6) of the
    Gregorian date of day 1, and the cell of day 1 comes right after it; the
    count lies between 0 and 6, is 0 exactly on Saturday and 6 exactly on
    Friday. *)
Theorem leading_blank_cells (year month : Z) (h : option Z) :
  1 <= month <= 12 ->
  exists gy gm gd name,
    shamsi_to_gregorian year month 1 = Ok (gy, gm, gd)
    /\ get_shamsi_month_name month = Ok name
    /\ (1 <= gy <= 9999 ->
        exists dt rest,
          Datetime.new_date gy gm gd = Ok dt
          /\ let w := Datetime.weekday dt in
             let lead := (w + 2) mod 7 in
             0 <= w <= 6 /\ 0 <= lead <= 6
             /\ (lead = 0 <-> w = 5) /\ (lead = 6 <-> w = 4)
             /\ len (mul "   " lead) = 3 * lead
             /\ fst (print_shamsi_calendar year month h)
                = header_month name year :: header_week
                    :: mul "   " lead :: day_cell h 1 :: rest).
Proof.
  intros Hm.
  destruct (shamsi_to_gregorian_valid _ _ _ (valid_shamsi_day_1 year month Hm))
    as (gy & gm & gd & Hg & Hvg & _).
  destruct (get_shamsi_month_name_in month ltac:(lia)) as [name Hn].
  exists gy, gm, gd, name. split; [exact Hg|]. split; [exact Hn|].
  intros Hy.
  destruct (print_shamsi_calendar_success year month h gy gm gd Hm Hg Hy)
    as (name' & n & Hn' & Hd & He).
  rewrite Hn in Hn'. injection Hn' as <-. cbv zeta in He.
  set (dt := Datetime.mkdate gy gm gd) in *.
  destruct (month_body_first_cell ((Datetime.weekday dt + 2) mod 7) n h)
    as [rest Hrest].
  { pose proof (get_days_in_shamsi_month_ge_29 _ _ _ Hd). lia. }
  exists dt, rest. split.
  { rewrite (new_date_valid _ _ _ Hvg).
    destruct (Z.leb_spec 1 gy); [|lia]. destruct (Z.leb_spec gy 9999); [|lia].
    reflexivity. }
  cbv zeta.
  pose proof (Z.mod_pos_bound (Datetime.toordinal dt + 6) 7 ltac:(lia)) as Hw.
  fold (Datetime.weekday dt) in Hw.
  pose proof (Z.mod_pos_bound (Datetime.weekday dt + 2) 7 ltac:(lia)) as Hl.
  assert (Hsat : (Datetime.weekday dt + 2) mod 7 = 0 <-> Datetime.weekday dt = 5).
  { split; intros E; [|now rewrite E].
    revert E Hw. generalize (Datetime.weekday dt). intros w.
    Z.div_mod_to_equations. lia. }
  assert (Hfri : (Datetime.weekday dt + 2) mod 7 = 6 <-> Datetime.weekday dt = 4).
  { split; intros E; [|now rewrite E].
    revert E Hw. generalize (Datetime.weekday dt). intros w.
    Z.div_mod_to_equations. lia. }
  split; [lia|]. split; [lia|]. split; [exact Hsat|]. split; [exact Hfri|].
  split; [apply len_blank_cells; lia|].
  rewrite He. cbn [fst]. now rewrite Hrest.
Qed.

Lemma leading_blank_cells_witness :
  exists gy gm gd name,
    shamsi_to_gregorian 1403 1 1 = Ok (gy, gm, gd)
    /\ get_shamsi_month_name 1 = Ok name
    /\ (1 <= gy <= 9999 ->
        exists dt rest,
          Datetime.new_date gy gm gd = Ok dt
          /\ let w := Datetime.weekday dt in
             let lead := (w + 2) mod 7 in
             0 <= w <= 6 /\ 0 <= lead <= 6
             /\ (lead = 0 <-> w = 5) /\ (lead = 6 <-> w = 4)
             /\ len (mul "   " lead) = 3 * lead
             /\ fst (print_shamsi_calendar 1403 1 (Some 5))
                = header_month name 1403 :: header_week
                    :: mul "   " lead :: day_cell (Some 5) 1 :: rest).
Proof. apply (leading_blank_cells 1403 1 (Some 5)). lia. Defined.

(** C9 as stated fails for the Shamsi year 9379: month 1 is a valid month,
    its first day is sent to the Gregorian year 10000, the construction of
    the date raises [ValueError], and the renderer stops after the two
    header lines without writing any leading cell. *)
Lemma leading_blank_cells_year_out_of_range :
  1 <= 1 <= 12
  /\ shamsi_to_gregorian 9379 1 1 = Ok (10000, 3, 21)
  /\ Datetime.new_date 10000 3 21 = Raise ValueError
  /\ print_shamsi_calendar 9379 1 None
     = ([header_month "Farvardin" 9379; header_week], Raise ValueError)
  /\ ~ (exists h1 h2 lead rest,
          fst (print_shamsi_calendar 9379 1 None) = h1 :: h2 :: lead :: rest).
Proof.
  split; [lia|]. split; [vm_compute; reflexivity|].
  split; [vm_compute; reflexivity|]. split; [vm_compute; reflexivity|].
  intros (h1 & h2 & lead & rest & H). vm_compute in H. discriminate.
Qed.

End LeadingBlanks.
